(** * TrustBridge backend: trust-score and loan-lifecycle engine

    A shallow embedding of [server/app.py] (Flask routes over a Firestore
    ledger) and of the two helpers it imports from [utils.loan_utils].

    Conventions of the model.
    - Text is a sequence of ASCII code points ([string] / [list ascii]);
      the character classes of Python's [re] and [str.strip] are the ASCII
      members of [\s], [\d] and [\w].
    - A Firestore document is a finite map from field paths to values; a
      merge-write of nested maps touches exactly the leaf paths it names.
    - The external collaborators (vision extractor, scoring model, clock,
      id generator of the ledger) are inputs of each route. *)

From Stdlib Require Import ZArith QArith Ascii String List Lia Bool.
From stdpp Require Import base option list gmap strings pretty.

Set Default Proof Using "Type".
#[local] Set Warnings "-register-all".
Local Open Scope Z_scope.

(* ===================================================================== *)
(** * Python values and text primitives *)
(* ===================================================================== *)

Module Py.

(** A Python [float]: a finite number or one of the three special values. *)
Inductive fnum :=
| Finite (q : Q)
| PosInf
| NegInf
| NaN.

(** JSON / Firestore values as the routes see them. *)
Inductive value :=
| VNull
| VBool (b : bool)
| VInt (z : Z)
| VFloat (f : fnum)
| VStr (s : string)
| VServerTimestamp
| VDatetime (seconds : Z)
| VList (l : list value)
| VMap (kvs : list (string * value)).

(** [x <= 0] on floats: every comparison with NaN is false. *)
Definition fle_zero (f : fnum) : bool :=
  match f with
  | Finite q => Qle_bool q 0
  | NegInf => true
  | PosInf => false
  | NaN => false
  end.

Definition code (c : ascii) : nat := nat_of_ascii c.

Definition in_range (lo hi : nat) (c : ascii) : bool :=
  (lo <=? code c)%nat && (code c <=? hi)%nat.

(** [\d] *)
Definition is_digit : ascii -> bool := in_range 48 57.
Definition is_upper : ascii -> bool := in_range 65 90.
Definition is_lower : ascii -> bool := in_range 97 122.
Definition is_alpha (c : ascii) : bool := is_upper c || is_lower c.

(** [\s] and [str.isspace]: TAB..CR, FS..US and SPACE. *)
Definition is_space (c : ascii) : bool :=
  in_range 9 13 c || in_range 28 32 c.

(** [\w] *)
Definition is_word (c : ascii) : bool :=
  is_alpha c || is_digit c || (code c =? 95)%nat.

Definition lower_char (c : ascii) : ascii :=
  if is_upper c then ascii_of_nat (code c + 32) else c.

Definition chars (s : string) : list ascii := list_ascii_of_string s.
Definition text (l : list ascii) : string := string_of_list_ascii l.

Definition upper_char (c : ascii) : ascii :=
  if is_lower c then ascii_of_nat (code c - 32) else c.

(** [str.lower] and [str.upper] *)
Definition lower (s : string) : string := text (map lower_char (chars s)).
Definition upper (s : string) : string := text (map upper_char (chars s)).

Fixpoint lstrip (l : list ascii) : list ascii :=
  match l with
  | c :: l' => if is_space c then lstrip l' else l
  | [] => []
  end.

(** [str.strip] *)
Definition strip (l : list ascii) : list ascii :=
  rev (lstrip (rev (lstrip l))).

Definition strip_str (s : string) : string := text (strip (chars s)).

(** [s.replace(" ", "")] *)
Definition remove_spaces (l : list ascii) : list ascii :=
  filter (fun c => code c ≠ 32%nat) l.

Definition digit_val (c : ascii) : Z := Z.of_nat (code c) - 48.

(** [int(ds)] on a run of decimal digits. *)
Definition int_of_digits (ds : list ascii) : Z :=
  fold_left (fun acc c => 10 * acc + digit_val c) ds 0.

(** Truthiness of an optional string: [None] and [""] are falsy. *)
Definition truthy (o : option string) : bool :=
  match o with
  | Some s => negb (String.eqb s "")
  | None => false
  end.

Definition opt_str (o : option string) : value :=
  match o with
  | Some s => VStr s
  | None => VNull
  end.

(** [d.get(k)] on a JSON object. *)
Fixpoint dict_get (k : string) (d : list (string * value)) : option value :=
  match d with
  | [] => None
  | (k', v) :: d' => if String.eqb k k' then Some v else dict_get k d'
  end.

(** [str(b)] for a bool inside an f-string. *)
Definition str_bool (b : bool) : string := if b then "True" else "False".

(** [sep.join(parts)] *)
Fixpoint join (sep : string) (parts : list string) : string :=
  match parts with
  | [] => ""
  | [p] => p
  | p :: ps => p +:+ sep +:+ join sep ps
  end.

End Py.

(* ===================================================================== *)
(** * The fragment of [re] used by the routes *)
(* ===================================================================== *)

Module Re.
Import Py.

(** Every pattern of the program is a sequence of greedy repetitions of
    one character class, possibly captured, and word boundaries. *)
Inductive item :=
| Rep (cls : ascii -> bool) (lo : nat) (hi : option nat) (cap : bool)
| WordB.

Definition pattern := list item.

(** The result of a match: group 0 and the captured groups in order. *)
Record mtch := Match { whole : list ascii; groups : list (list ascii) }.

Fixpoint run (cls : ascii -> bool) (s : list ascii) : nat :=
  match s with
  | c :: s' => if cls c then S (run cls s') else O
  | [] => O
  end.

Definition cap_at (hi : option nat) (n : nat) : nat :=
  match hi with
  | Some h => Nat.min h n
  | None => n
  end.

(** Backtracking over a greedy count: tries [n], [n-1], ..., [lo]. *)
Fixpoint first_down {A} (f : nat -> option A) (lo n : nat) : option A :=
  if (n <? lo)%nat then None
  else match f n with
       | Some a => Some a
       | None => match n with
                 | O => None
                 | S n' => first_down f lo n'
                 end
       end.

Definition last_char (prev : option ascii) (l : list ascii) : option ascii :=
  match last l with
  | Some c => Some c
  | None => prev
  end.

Definition wordy (o : option ascii) : bool :=
  match o with
  | Some c => is_word c
  | None => false
  end.

(** [\b]: exactly one side is a word character. *)
Definition boundary (prev : option ascii) (s : list ascii) : bool :=
  xorb (wordy prev) (wordy (head s)).

(** Match the pattern at the start of [s]; [prev] is the character in
    front of [s], if any. *)
Fixpoint match_here (p : pattern) (prev : option ascii) (s : list ascii)
  : option mtch :=
  match p with
  | [] => Some (Match [] [])
  | WordB :: p' =>
      if boundary prev s then match_here p' prev s else None
  | Rep cls lo hi cap :: p' =>
      first_down
        (fun k =>
           let pre := take k s in
           match match_here p' (last_char prev pre) (drop k s) with
           | Some m =>
               Some (Match (pre ++ whole m)
                           (if cap then pre :: groups m else groups m))
           | None => None
           end)
        lo (cap_at hi (run cls s))
  end.

(** [re.search]: the leftmost position at which the pattern matches. *)
Fixpoint search_from (p : pattern) (prev : option ascii) (s : list ascii)
  : option mtch :=
  match match_here p prev s with
  | Some m => Some m
  | None =>
      match s with
      | [] => None
      | c :: s' => search_from p (Some c) s'
      end
  end.

Definition search (p : pattern) (s : string) : option mtch :=
  search_from p None (chars s).

Definition group0 (m : mtch) : string := text (whole m).
Definition group1 (m : mtch) : list ascii := default [] (head (groups m)).

(** ** Pattern constructors *)

Definition one (cls : ascii -> bool) : item := Rep cls 1 (Some 1%nat) false.
Definition many (cls : ascii -> bool) : item := Rep cls 0 None false.
Definition opt (cls : ascii -> bool) : item := Rep cls 0 (Some 1%nat) false.
Definition exactly (n : nat) (cls : ascii -> bool) : item :=
  Rep cls n (Some n) false.

Definition is_char (c : ascii) : ascii -> bool := Ascii.eqb c.
(** A literal character under [re.IGNORECASE]. *)
Definition is_char_ci (c : ascii) (x : ascii) : bool :=
  Ascii.eqb (lower_char c) (lower_char x).

Definition lit (s : string) : pattern := map (fun c => one (is_char c)) (chars s).
Definition lit_ci (s : string) : pattern :=
  map (fun c => one (is_char_ci c)) (chars s).

Definition colon_or_dash (c : ascii) : bool :=
  is_char ":" c || is_char "-" c.
Definition alpha_or_space (c : ascii) : bool := is_alpha c || is_space c.
Definition any_char (c : ascii) : bool := true.

(** [[A-Z]{5}[0-9]{4}[A-Z]{1}] *)
Definition pan_re : pattern :=
  [exactly 5 is_upper; exactly 4 is_digit; exactly 1 is_upper].

(** [\b\d{4}\s?\d{4}\s?\d{4}\b] *)
Definition aadhaar_re : pattern :=
  [WordB; exactly 4 is_digit; opt is_space; exactly 4 is_digit;
   opt is_space; exactly 4 is_digit; WordB].

(** [Name\s*[:\-]?\s*([A-Za-z\s]+)] with [re.IGNORECASE] *)
Definition name_re : pattern :=
  lit_ci "Name" ++
  [many is_space; opt colon_or_dash; many is_space;
   Rep alpha_or_space 1 None true].

(** [Phone\s*[:\-]?\s*(\d{10})] *)
Definition phone_re : pattern :=
  lit "Phone" ++
  [many is_space; opt colon_or_dash; many is_space;
   Rep is_digit 10 (Some 10%nat) true].

(** [Score:\s*(\d{1,3})] with [re.IGNORECASE] *)
Definition score_re : pattern :=
  lit_ci "Score:" ++ [many is_space; Rep is_digit 1 (Some 3%nat) true].

(** [Explanation:\s*] followed by the group [.*], with
    [re.IGNORECASE | re.DOTALL] *)
Definition explanation_re : pattern :=
  lit_ci "Explanation:" ++ [many is_space; Rep any_char 0 None true].

(** ** Declarative reading of a pattern

    [matches p prev m caps rest]: the pattern can consume exactly [m] in
    front of [rest], capturing [caps], [prev] being the character before
    [m]. *)
Definition count_ok (lo : nat) (hi : option nat) (n : nat) : Prop :=
  (lo <= n)%nat /\ match hi with Some h => (n <= h)%nat | None => True end.

Inductive matches :
  pattern -> option ascii -> list ascii -> list (list ascii) -> list ascii
  -> Prop :=
| matches_nil prev rest :
    matches [] prev [] [] rest
| matches_rep cls lo hi cap p prev pre m caps rest :
    Forall (fun c => cls c = true) pre ->
    count_ok lo hi (length pre) ->
    matches p (last_char prev pre) m caps rest ->
    matches (Rep cls lo hi cap :: p) prev (pre ++ m)
            (if cap then pre :: caps else caps) rest
| matches_wordb p prev m caps rest :
    boundary prev (m ++ rest) = true ->
    matches p prev m caps rest ->
    matches (WordB :: p) prev m caps rest.

(** The text contains an occurrence of the pattern. *)
Definition occurs (p : pattern) (s : list ascii) : Prop :=
  exists pre m caps rest,
    s = pre ++ m ++ rest /\ matches p (last_char None pre) m caps rest.

(** The text contains [Score:] in any letter case, then any white space,
    then a digit. *)
Definition contains_score_pattern (t : string) : Prop :=
  exists pre l ws d rest,
    chars t = pre ++ l ++ ws ++ d :: rest /\
    map lower_char l = chars "score:" /\
    Forall (fun c => is_space c = true) ws /\
    is_digit d = true.

End Re.

(* ===================================================================== *)
(** * The ledger: Firestore collections, documents and merge-writes *)
(* ===================================================================== *)

Module Ledger.
Import Py.

(** A document: field path (dotted, as Firestore writes it) to value. *)
Abbreviation doc := (gmap string value).

(** A [gov_records] document, with the schema the identity route reads:
    the truthiness of [verified], [name], and [str(phone)]. *)
Record gov_record := GovRecord {
  gov_verified : bool;
  gov_name : string;
  gov_phone : string
}.

Inductive event :=
| SetUser (uid : string)
| GetLoan (uid loan_id : string)
| AddLoan (uid loan_id : string)
| UpdateLoan (uid loan_id : string)
| GetGovRecord (pan : string)
| UnlockDocuments (uid loan_id : string).

#[global] Instance event_eq_dec : EqDecision event.
Proof. solve_decision. Defined.

Record world := World {
  users : gmap string doc;
  loans : gmap (string * string) doc;
  gov_records : gmap string gov_record;
  journal : list event
}.

Definition empty_world : world := World ∅ ∅ ∅ [].

Definition log (e : event) (w : world) : world :=
  World (users w) (loans w) (gov_records w) (journal w ++ [e]).

Definition subpath (prefix k : string) : string := prefix +:+ "." +:+ k.

(** The leaf paths named by a (possibly nested) value. *)
Fixpoint flatten (path : string) (v : value) : list (string * value) :=
  match v with
  | VMap ((_ :: _) as kvs) =>
      (fix go (l : list (string * value)) : list (string * value) :=
         match l with
         | [] => []
         | (k, x) :: l' => flatten (subpath path k) x ++ go l'
         end) kvs
  | _ => [(path, v)]
  end.

Definition leaves (fields : list (string * value)) : list (string * value) :=
  flat_map (fun kv => flatten (fst kv) (snd kv)) fields.

(** [set(fields, merge=True)] and [update(fields)] on one document: each
    leaf path named by [fields] takes its value. Paths below or above a
    written path are kept as they are, where the ledger would replace the
    field wholesale; a document holding a value at a path together with
    fields below that path is outside this model. *)
Definition merge (fields : list (string * value)) (d : doc) : doc :=
  fold_left (fun acc kv => <[fst kv := snd kv]> acc) (leaves fields) d.

(** [db.collection("users").document(uid).set(fields, merge=True)] *)
Definition set_user (uid : string) (fields : list (string * value)) (w : world)
  : world :=
  log (SetUser uid)
      (World (<[uid := merge fields (default ∅ (users w !! uid))]> (users w))
             (loans w) (gov_records w) (journal w)).

(** [....collection("loans").document(loan_id).get()] *)
Definition get_loan (uid loan_id : string) (w : world) : option doc * world :=
  (loans w !! (uid, loan_id), log (GetLoan uid loan_id) w).

(** [loan_ref.update(fields)] on an existing loan document. *)
Definition update_loan (uid loan_id : string) (fields : list (string * value))
    (w : world) : world :=
  log (UpdateLoan uid loan_id)
      (World (users w)
             (alter (merge fields) (uid, loan_id) (loans w))
             (gov_records w) (journal w)).

(** [....collection("loans").add(fields)] with the identifier the ledger
    generated; creating a document under an identifier in use fails. *)
Definition add_loan (uid loan_id : string) (fields : list (string * value))
    (w : world) : option world :=
  match loans w !! (uid, loan_id) with
  | Some _ => None
  | None =>
      Some (log (AddLoan uid loan_id)
              (World (users w)
                     (<[(uid, loan_id) := merge fields ∅]> (loans w))
                     (gov_records w) (journal w)))
  end.

(** [db.collection("gov_records").document(pan).get()] *)
Definition get_gov_record (pan : string) (w : world)
  : option gov_record * world :=
  (gov_records w !! pan, log (GetGovRecord pan) w).

End Ledger.

(* ===================================================================== *)
(** * Calendar dates *)
(* ===================================================================== *)

Module Date.

(** A calendar date is its day number (days since 1970-01-01). *)
Definition date := Z.

(** Day number of [y-m-d] in the proleptic Gregorian calendar. *)
Definition of_ymd (y m d : Z) : date :=
  let y' := if m <=? 2 then y - 1 else y in
  let era := y' / 400 in
  let yoe := y' - era * 400 in
  let mp := if 2 <? m then m - 3 else m + 9 in
  let doy := (153 * mp + 2) / 5 + d - 1 in
  let doe := yoe * 365 + yoe / 4 - yoe / 100 + doy in
  era * 146097 + doe - 719468.

End Date.

(* ===================================================================== *)
(** * utils.loan_utils *)
(* ===================================================================== *)

Module LoanUtils.
Import Py Ledger.

Inductive error :=
| InvalidDateRange
| LoanNotFound.

Section InterestCalculator.

(** The penalty rate per day late, a configuration constant. *)
Variable daily_rate : Q.

(** Modelled from the spec: [utils/loan_utils.py] is not part of the
    sources at hand. Section 4.1: the base amount due is the
    principal; once the evaluation date is after the due date, simple
    daily interest at the configured rate is added for each day late;
    a due date before the issue date is an [InvalidDateRange]. *)
Definition calculate_total_due (principal : Q)
    (issue_date due_date evaluation_date : Date.date) : error + Q :=
  if due_date <? issue_date then inl InvalidDateRange
  else if due_date <? evaluation_date then
    inr (principal
         + principal * daily_rate * inject_Z (evaluation_date - due_date))%Q
  else inr principal.

End InterestCalculator.

Section DocumentEscrowReleaser.

(** The release policy: whether a loan in this state is eligible for
    release at [current_date], given its [due_date]. *)
Variable eligible : doc -> Date.date -> Date.date -> bool.

(** The [documentsReleased] flag of a loan, false by default. *)
Definition documents_released (d : doc) : bool :=
  match d !! "documentsReleased" with
  | Some (VBool b) => b
  | _ => false
  end.

(** Modelled from the spec: [utils/loan_utils.py] is not part of the
    sources at hand. Section 4.2: an absent loan is [LoanNotFound];
    the documents are released (flag set and timestamped in the
    ledger, storage unlocked) if and only if the policy holds and the
    flag is currently false; every other case is a plain [false]. *)
Definition check_and_release_documents (uid loan_id : string)
    (due_date current_date : Date.date) (w : world)
  : (error + bool) * world :=
  match get_loan uid loan_id w with
  | (None, w1) => (inl LoanNotFound, w1)
  | (Some d, w1) =>
      if documents_released d then (inr false, w1)
      else if eligible d due_date current_date then
        (inr true,
         log (UnlockDocuments uid loan_id)
             (update_loan uid loan_id
                [("documentsReleased", VBool true);
                 ("documentsReleasedAt", VServerTimestamp)] w1))
      else (inr false, w1)
  end.

End DocumentEscrowReleaser.

(** The policy the spec names: the due date has been reached. *)
Definition due_date_reached (d : doc) (due_date current_date : Date.date)
  : bool := due_date <=? current_date.

(** Number of physical releases recorded for a loan. *)
Definition releases (uid loan_id : string) (w : world) : nat :=
  length (filter (fun e => e = UnlockDocuments uid loan_id) (journal w)).

End LoanUtils.

(* ===================================================================== *)
(** * server/app.py *)
(* ===================================================================== *)

Module App.
Import Py Re Ledger.

Record response := Response { status : Z; body : list (string * value) }.

(** [return jsonify(body), code] *)
Definition jsonify (b : list (string * value)) (code : Z) : response :=
  Response code b.

(** ** Routes: ledger state threaded through, with early [return] *)

Inductive outcome (A : Type) :=
| Continue (a : A)
| Return (r : response).
Arguments Continue {A} a.
Arguments Return {A} r.

Definition route (A : Type) : Type := world -> outcome A * world.

Definition ret {A} (a : A) : route A := fun w => (Continue a, w).
Definition reply {A} (r : response) : route A := fun w => (Return r, w).
Definition bind {A B} (c : route A) (k : A -> route B) : route B :=
  fun w =>
    match c w with
    | (Continue a, w') => k a w'
    | (Return r, w') => (Return r, w')
    end.
Definition lift {A} (f : world -> A * world) : route A :=
  fun w => let (a, w') := f w in (Continue a, w').
Definition effect (f : world -> world) : route unit :=
  fun w => (Continue tt, f w).

(** [if c: return r] *)
Definition return_if (c : bool) (r : response) : route unit :=
  if c then reply r else ret tt.

Definition run (c : route response) (w : world) : response * world :=
  match c w with
  | (Continue r, w') => (r, w')
  | (Return r, w') => (r, w')
  end.

Notation "'let*' x ':=' c 'in' k" := (bind c (fun x => k))
  (at level 10, x name, c at level 100, k at level 200).

Definition newline : string := String "010"%char EmptyString.

(** ** POST /user/profile/<uid> *)
Definition user_profile_post (uid : string) (data : list (string * value))
  : route response :=
  let* _ := effect (set_user uid data) in
  ret (jsonify [("status", VStr "profile updated")] 200).

(** ** POST /loan/request *)

(** The JSON body of a loan request: each required field is absent or
    carries a value; [uid] is a Firebase user id. *)
Record loan_request_data := LoanRequestData {
  lr_uid : option string;
  lr_amount : option value;
  lr_purpose : option value;
  lr_wallet : option value
}.

Inductive float_result :=
| FloatOk (f : fnum)
| ValueError
| TypeError
| OverflowError.

(** Integers from this magnitude on do not fit a double. *)
Definition float_int_limit : Z := 2 ^ 1024 - 2 ^ 970.

Section Environment.

(** [float(s)] on a string: the parsed number, or nothing on [ValueError]. *)
Variable float_of_str : string -> option fnum.
(** [model.generate_content(vision prompt, file).text] *)
Variable vision : string -> list ascii -> option string.
(** [model.generate_content(trust prompt around the data).text] *)
Variable scorer : string -> option string.
(** [werkzeug.utils.secure_filename] *)
Variable secure_filename : string -> string.
(** [datetime.now(timezone.utc)], in seconds and as ISO text. *)
Variable now : Z.
Variable now_iso : string.

(** [float(v)]; rounding to 53 bits is not represented. *)
Definition py_float (v : value) : float_result :=
  match v with
  | VBool b => FloatOk (Finite (if b then 1 else 0)%Q)
  | VInt z =>
      if Z.abs z <? float_int_limit then FloatOk (Finite (inject_Z z))
      else OverflowError
  | VFloat f => FloatOk f
  | VStr s =>
      match float_of_str s with
      | Some f => FloatOk f
      | None => ValueError
      end
  | _ => TypeError
  end.

(** [data.get(k)] as a value: [None] when the key is absent. *)
Definition get_or_null (o : option value) : value := default VNull o.

(** The document stored for a new loan. *)
Definition loan_fields (amount : fnum) (purpose wallet : value)
  : list (string * value) :=
  [("amount", VFloat amount);
   ("purpose", purpose);
   ("timestamp", VServerTimestamp);
   ("due_date", VDatetime (now + 30 * 86400));
   ("status", VStr "pending");
   ("wallet", wallet)].

(** [generated]: what [add] did, the identifier it generated or the text
    of the exception it raised. *)
Definition loan_request (data : loan_request_data) (generated : string + string)
  : route response :=
  let* _ :=
    return_if
      (negb (forallb (fun present => present)
               [bool_decide (is_Some (lr_uid data));
                bool_decide (is_Some (lr_amount data));
                bool_decide (is_Some (lr_purpose data));
                bool_decide (is_Some (lr_wallet data))]))
      (jsonify [("error", VStr "Missing required fields")] 400) in
  let* amount :=
    match py_float (get_or_null (lr_amount data)) with
    | FloatOk a =>
        if fle_zero a
        then reply (jsonify [("error", VStr "Amount must be positive")] 400)
        else ret a
    | ValueError | TypeError =>
        reply (jsonify [("error", VStr "Invalid amount")] 400)
    | OverflowError => reply (Response 500 [])
    end in
  let uid := default "" (lr_uid data) in
  let loan_data :=
    loan_fields amount (get_or_null (lr_purpose data))
      (get_or_null (lr_wallet data)) in
  fun w =>
    match generated with
    | inl e =>
        (Return (jsonify [("error", VStr ("Database error: " +:+ e))] 500), w)
    | inr loan_id =>
        match add_loan uid loan_id loan_data w with
        | Some w' =>
            (Return (jsonify [("status", VStr "loan request submitted")] 200), w')
        | None =>
            (Return (jsonify [("error", VStr "Database error: already exists")] 500), w)
        end
    end.

(** ** POST /loan/decision/<uid>/<loan_id> *)
Definition is_decision (v : option value) : bool :=
  match v with
  | Some (VStr s) => String.eqb s "approved" || String.eqb s "rejected"
  | _ => false
  end.

Definition loan_decision (uid loan_id : string) (decision : option value)
  : route response :=
  let* _ :=
    return_if (negb (is_decision decision))
      (jsonify [("error",
                 VStr "Decision must be either 'approved' or 'rejected'")] 400) in
  let* loan := lift (get_loan uid loan_id) in
  let* _ :=
    return_if (bool_decide (loan = None))
      (jsonify [("error", VStr "Loan not found")] 404) in
  let* _ := effect (update_loan uid loan_id [("status", get_or_null decision)]) in
  ret (jsonify
         [("message",
           VStr ("Loan " +:+ loan_id +:+ " has been "
                 +:+ match decision with Some (VStr s) => s | _ => "" end))]
         200).

(** ** Document upload shared by the two scoring routes *)

Record upload := Upload {
  mimetype : string;
  filename : string;
  content : list ascii
}.

Definition allowed_types : list string :=
  ["image/jpeg"; "image/png"; "application/pdf"].

Definition extract_file (f : upload) : string * string :=
  (secure_filename (filename f),
   match vision (mimetype f) (content f) with
   | Some t => if String.eqb t "" then "No text extracted" else strip_str t
   | None => "No text extracted"
   end).

(** The loop over [files]: files of another type are skipped. *)
Definition extracted_results (files : list upload) : list (string * string) :=
  map extract_file
      (filter (fun f => mimetype f ∈ allowed_types) files).

Definition results_json (rs : list (string * string)) : value :=
  VList (map (fun r => VMap [("filename", VStr (fst r));
                             ("extracted_text", VStr (snd r))]) rs).

Definition combine (rs : list (string * string)) : string :=
  join (newline +:+ newline) (map snd rs).

(** ** POST /vision/first-trustscore *)

Record identity_form := IdentityForm {
  id_uid : option string;
  id_phone : option string;
  id_files : list upload
}.

Definition bypass_pan : string := "EMPPG7988Q".

Definition extract_pan (combined : string) : option string :=
  (fun m => upper (strip_str (group0 m)))
    <$> search pan_re (text (remove_spaces (chars combined))).

Definition extract_aadhaar (combined : string) : option string :=
  (fun m => text (remove_spaces (whole m))) <$> search aadhaar_re combined.

Definition extract_name (combined : string) : option string :=
  (fun m => text (strip (group1 m))) <$> search name_re combined.

Definition extract_phone (combined : string) : option string :=
  (fun m => text (group1 m)) <$> search phone_re combined.

(** The point buckets of the identity trust score, and their reasons. *)
Definition identity_trust_score
    (pan_verified aadhaar_verified phone_matches name_present : bool)
  : Z * list string :=
  let score := 0 in
  let parts := [] in
  let '(score, parts) :=
    if pan_verified
    then (score + 40, parts ++ ["PAN matched with government records (+40)"])
    else (score, parts) in
  let '(score, parts) :=
    if aadhaar_verified
    then (score + 30, parts ++ ["Aadhaar number successfully extracted (+30)"])
    else (score, parts) in
  let '(score, parts) :=
    if phone_matches
    then (score + 20, parts ++ ["Phone number matches the submitted one (+20)"])
    else (score, parts ++ ["Phone number mismatch or not found (+0)"]) in
  let '(score, parts) :=
    if name_present
    then (score + 10, parts ++ ["Name extracted from document (+10)"])
    else (score, parts ++ ["Name not extracted from any document (+0)"]) in
  (Z.min score 100, parts).

(** One entry of a score history. *)
Definition history_entry (score : Z) (reason : string) : value :=
  VMap [("score", VInt score); ("reason", VStr reason); ("date", VStr now_iso)].

Definition identity_reason (pan_verified aadhaar_verified : bool) : string :=
  "Identity verification completed. PAN Verified: "
  +:+ str_bool pan_verified +:+ ", Aadhaar Present: "
  +:+ str_bool aadhaar_verified.

(** The fields the identity route merges into the user's document. *)
Definition identity_fields (score : Z) (reason : string)
  : list (string * value) :=
  [("trust_score",
    VMap [("identity_score", VInt score);
          ("identity_verified_at", VServerTimestamp);
          ("identity_history", VList [history_entry score reason])])].

(** The fields the financial route merges into the user's document. *)
Definition financial_fields (score : Z) (explanation : string)
  : list (string * value) :=
  [("trust_score",
    VMap [("financial_score", VInt score);
          ("financial_verified_at", VServerTimestamp);
          ("financial_history", VList [history_entry score explanation])])].

(** The PAN check: the bypass code, or the government record. *)
Definition verify_pan (pan name phone_input : string) : route (bool * string) :=
  if String.eqb pan bypass_pan then ret (true, "PAN bypass code detected.")
  else
    let* gov_doc := lift (get_gov_record pan) in
    match gov_doc with
    | None =>
        reply (jsonify [("error", VStr "PAN not found in government records");
                        ("pan", VStr pan)] 403)
    | Some gov_data =>
        if negb (gov_verified gov_data)
        then reply (jsonify [("error", VStr "Government record not verified")] 403)
        else if negb (String.eqb (lower name) (lower (gov_name gov_data)))
                || negb (String.eqb phone_input (gov_phone gov_data))
        then reply (jsonify
                      [("error", VStr "Details do not match government records");
                       ("expected_name", VStr (gov_name gov_data));
                       ("provided_name", VStr name);
                       ("expected_phone", VStr (gov_phone gov_data));
                       ("provided_phone", VStr phone_input)] 403)
        else ret (true, "PAN and user details matched government records.")
    end.

Definition verify_identity_documents (form : identity_form) : route response :=
  let* _ := return_if (negb (truthy (id_uid form)))
              (jsonify [("error", VStr "User ID required")] 400) in
  let* _ := return_if (negb (truthy (id_phone form)))
              (jsonify [("error", VStr "Phone number required")] 400) in
  let uid := default "" (id_uid form) in
  let phone_input := default "" (id_phone form) in
  let files := id_files form in
  let* _ := return_if (bool_decide (files = []))
              (jsonify [("error", VStr "No file uploaded")] 400) in
  let results := extracted_results files in
  let* _ := return_if (bool_decide (results = []))
              (jsonify [("error", VStr "No valid documents processed")] 400) in
  let combined_history := combine results in
  let pan_number := extract_pan combined_history in
  let aadhaar_number := extract_aadhaar combined_history in
  let name_extracted := extract_name combined_history in
  let phone_extracted := extract_phone combined_history in
  let* _ := return_if (negb (truthy pan_number) || negb (truthy name_extracted))
              (jsonify [("error", VStr "PAN or Name not verified in documents")]
                 403) in
  let pan := default "" pan_number in
  let name := default "" name_extracted in
  let* verdict := verify_pan pan name phone_input in
  let pan_verified := fst verdict in
  let aadhaar_verified := truthy aadhaar_number in
  let phone_matches :=
    truthy phone_extracted && bool_decide (phone_extracted = Some phone_input) in
  let '(identity_score, explanation_parts) :=
    identity_trust_score pan_verified aadhaar_verified phone_matches
      (truthy name_extracted) in
  let* _ :=
    effect (set_user uid
              (identity_fields identity_score
                 (identity_reason pan_verified aadhaar_verified))) in
  ret (jsonify
         [("trust_score", VInt identity_score);
          ("aadhaar_verified", VBool aadhaar_verified);
          ("aadhaar_number", opt_str aadhaar_number);
          ("pan_verified", VBool pan_verified);
          ("pan_number", opt_str pan_number);
          ("phone_provided", VStr phone_input);
          ("phone_extracted", opt_str phone_extracted);
          ("name_extracted", opt_str name_extracted);
          ("results", results_json results);
          ("message", VStr "Identity verification completed successfully.")]
         200).

(** ** POST /vision/financial-trustscore *)

Record financial_form := FinancialForm {
  fin_uid : option string;
  fin_files : list upload
}.

Definition default_explanation : string :=
  "Score could not be determined from documents.".

(** The score and explanation read from the scorer's response. *)
Definition parse_score (text_response : string) : Z * string :=
  let score_match := search score_re text_response in
  let explanation_match := search explanation_re text_response in
  let financial_score := 5 in
  let explanation := default_explanation in
  match score_match with
  | Some m =>
      (Z.min 100 (Z.max 0 (int_of_digits (group1 m))),
       match explanation_match with
       | Some e => text (strip (group1 e))
       | None => explanation
       end)
  | None => (financial_score, explanation)
  end.

Definition verify_financial_documents (form : financial_form) : route response :=
  let* _ := return_if (negb (truthy (fin_uid form)))
              (jsonify [("error", VStr "User ID required")] 400) in
  let uid := default "" (fin_uid form) in
  let files := fin_files form in
  let* _ := return_if (bool_decide (files = []))
              (jsonify [("error", VStr "No file uploaded")] 400) in
  let results := extracted_results files in
  let* _ := return_if (bool_decide (results = []))
              (jsonify [("error", VStr "No valid documents processed")] 400) in
  let combined_data := combine results in
  let text_response := default "" (scorer combined_data) in
  let '(financial_score, explanation) := parse_score text_response in
  let* _ := effect (set_user uid (financial_fields financial_score explanation)) in
  ret (jsonify
         [("trust_score", VInt financial_score);
          ("results", results_json results);
          ("message", VStr "Financial documents evaluated successfully.");
          ("explanation", VStr explanation)]
         200).

End Environment.

(** A sequence of decision calls [(uid, loan_id, decision)], in order. *)
Definition decide_all (calls : list (string * string * option value))
    (w : world) : world :=
  fold_left
    (fun w c => snd (run (loan_decision (fst (fst c)) (snd (fst c)) (snd c)) w))
    calls w.

(** The stored status of a loan, if the loan and the field exist. *)
Definition loan_status_of (w : world) (uid loan_id : string) : option value :=
  loans w !! (uid, loan_id) ≫= fun d => d !! "status".

End App.

(* ===================================================================== *)
(** * server/app.py: one-time passwords *)
(* ===================================================================== *)

Module Otp.
Import Py App.

(** [otp_store], the module-level dict from e-mail address to code. *)
Abbreviation otp_store := (gmap string string).

(** Truthiness of a JSON value, as [not v] tests it. *)
Definition value_truthy (v : value) : bool :=
  match v with
  | VNull => false
  | VBool b => b
  | VInt z => negb (z =? 0)
  | VFloat (Finite q) => negb (Qeq_bool q 0)
  | VFloat _ => true
  | VStr s => negb (String.eqb s "")
  | VList l => match l with [] => false | _ => true end
  | VMap kvs => match kvs with [] => false | _ => true end
  | VServerTimestamp | VDatetime _ => true
  end.

(** [stored == otp] for a stored code (a string): only an equal string. *)
Definition code_equals (stored : option string) (otp : value) : bool :=
  match stored, otp with
  | Some c, VStr s => String.eqb c s
  | _, _ => false
  end.

(** POST /send-otp. [draw] is the number [random.randint] returned and
    [sent] tells whether [send_email] returned without raising; the
    address, when present, is a string. *)
Definition send_otp (email : option string) (draw : Z) (sent : bool)
    (store : otp_store) : response * otp_store :=
  if negb (truthy email)
  then (jsonify [("success", VBool false); ("message", VStr "Email required")]
          400, store)
  else
    let otp := pretty draw in
    let store := <[default "" email := otp]> store in
    if sent
    then (jsonify [("success", VBool true); ("message", VStr "OTP sent")] 200,
          store)
    else (jsonify [("success", VBool false);
                   ("message", VStr "Failed to send OTP")] 500, store).

(** POST /verify-otp. *)
Definition verify_otp (email : option string) (otp : option value)
    (store : otp_store) : response * otp_store :=
  if negb (truthy email) || negb (value_truthy (default VNull otp))
  then (jsonify [("success", VBool false);
                 ("message", VStr "Email and OTP required")] 400, store)
  else if code_equals (store !! default "" email) (default VNull otp)
  then (jsonify [("success", VBool true); ("message", VStr "OTP verified")] 200,
        delete (default "" email) store)
  else (jsonify [("success", VBool false); ("message", VStr "Invalid OTP")] 400,
        store).

End Otp.

(* ===================================================================== *)
(** * Reading the ledger *)
(* ===================================================================== *)

Module Queries.
Import Py Ledger.

(** The value stored at a field path of a user's document. *)
Definition user_field (w : world) (uid path : string) : option value :=
  users w !! uid ≫= fun d => d !! path.

(** The value stored at a field path of a loan document. *)
Definition loan_field (w : world) (uid loan_id path : string) : option value :=
  loans w !! (uid, loan_id) ≫= fun d => d !! path.

(** The field paths a merge-write names. *)
Definition written_paths (fields : list (string * value)) : list string :=
  (leaves fields).*1.

(** [k] lies below [p]: it is a field of the map stored at [p]. *)
Definition below (p k : string) : Prop :=
  exists suf, k = p +:+ "." +:+ suf.

(** [k] is apart from [p]: neither [p] itself, nor below it, nor above
    it. A write at [p] cannot reach such a path, in this model or in a
    ledger that replaces a field wholesale. *)
Definition apart (p k : string) : Prop :=
  k <> p /\ ~ below p k /\ ~ below k p.

(** The paths of a user's document each scoring route names. *)
Definition financial_paths : list string :=
  ["trust_score.financial_score"; "trust_score.financial_verified_at";
   "trust_score.financial_history"].

Definition identity_paths : list string :=
  ["trust_score.identity_score"; "trust_score.identity_verified_at";
   "trust_score.identity_history"].

End Queries.

(* ===================================================================== *)
(** * Sample requests and ledgers *)
(* ===================================================================== *)

Module Samples.
Import Py Ledger App.

(** An extractor that reads the same card on every upload. *)
Definition card (pan : string) : string -> list ascii -> option string :=
  fun _ _ =>
    Some ("PAN: " +:+ pan +:+ newline +:+ "Phone: 9876543210" +:+ newline
          +:+ "Name: Asha Rao").

Definition one_card_form : identity_form :=
  IdentityForm (Some "u1") (Some "9876543210")
    [Upload "image/png" "card.png" []].

Definition gov_world (pan : string) (g : gov_record) : world :=
  World ∅ ∅ {[ pan := g ]} [].

(** A ledger holding one loan with the given status. *)
Definition loan_world (st : string) : world :=
  World ∅ {[ ("u1", "loan1") := {[ "status" := VStr st ]} ]} ∅ [].

Definition no_float : string -> option fnum := fun _ => None.

Definition good_request : loan_request_data :=
  LoanRequestData (Some "u1") (Some (VInt 5000))
                  (Some (VStr "school fees")) (Some (VStr "0xabc")).

End Samples.

(* ===================================================================== *)
(** * Properties of the interest calculator *)
(* ===================================================================== *)

Section InterestFacts.
Import LoanUtils.
Local Open Scope Q_scope.

Example scenario_on_time :
  calculate_total_due (1 # 100) 10000
    (Date.of_ymd 2024 1 1) (Date.of_ymd 2024 1 31) (Date.of_ymd 2024 1 15)
  = inr 10000.
Proof. reflexivity. Qed.

Example scenario_ten_days_late :
  exists t,
    calculate_total_due (1 # 100) 10000
      (Date.of_ymd 2024 1 1) (Date.of_ymd 2024 1 31) (Date.of_ymd 2024 2 10)
    = inr t /\ t == 11000.
Proof. eexists. split; [reflexivity | reflexivity]. Qed.

Lemma late_total (rate principal : Q) (issue due eval : Date.date) :
  (issue <= due)%Z -> (due < eval)%Z ->
  calculate_total_due rate principal issue due eval
  = inr (principal + principal * rate * inject_Z (eval - due)).
Proof.
  intros Hi He. unfold calculate_total_due.
  destruct (Z.ltb_spec due issue) as [Hlt | _]; [lia |].
  destruct (Z.ltb_spec due eval) as [_ | Hge]; [reflexivity | lia].
Qed.

Lemma inject_Z_pos (z : Z) : (0 < z)%Z -> 0 < inject_Z z.
Proof. intros H. unfold Qlt, inject_Z. simpl. lia. Qed.

(** C2. With a positive principal, an issue date not after the due date
    and an evaluation date not after the due date, the amount due is
    exactly the principal: no penalty is added. *)
Theorem total_due_is_principal_until_due
    (rate principal : Q) (issue due eval : Date.date) :
  0 < principal -> (issue <= due)%Z -> (eval <= due)%Z ->
  calculate_total_due rate principal issue due eval = inr principal.
Proof.
  intros _ Hi He. unfold calculate_total_due.
  destruct (Z.ltb_spec due issue) as [Hlt | _]; [lia |].
  destruct (Z.ltb_spec due eval) as [Hlt | _]; [lia | reflexivity].
Qed.

Lemma total_due_is_principal_until_due_witness :
  calculate_total_due (1 # 100) 10000
    (Date.of_ymd 2024 1 1) (Date.of_ymd 2024 1 31) (Date.of_ymd 2024 1 15)
  = inr 10000.
Proof.
  apply (total_due_is_principal_until_due (1 # 100) 10000);
    vm_compute; congruence.
Defined.

(** C3. With a positive principal and a positive daily rate, an evaluation
    date strictly after the due date gives an amount strictly above the
    principal, and a later evaluation date never gives a smaller amount. *)
Theorem total_due_grows_when_late
    (rate principal : Q) (issue due eval1 eval2 : Date.date) :
  0 < rate -> 0 < principal ->
  (issue <= due)%Z -> (due < eval1)%Z -> (eval1 <= eval2)%Z ->
  exists t1 t2,
    calculate_total_due rate principal issue due eval1 = inr t1 /\
    calculate_total_due rate principal issue due eval2 = inr t2 /\
    principal < t1 /\ t1 <= t2.
Proof.
  intros Hr Hp Hi H1 H12.
  exists (principal + principal * rate * inject_Z (eval1 - due)),
         (principal + principal * rate * inject_Z (eval2 - due)).
  split; [apply late_total; lia |].
  split; [apply late_total; lia |].
  assert (Hpr : 0 < principal * rate) by (apply Qmult_lt_0_compat; assumption).
  split.
  - assert (Hd : 0 < inject_Z (eval1 - due)) by (apply inject_Z_pos; lia).
    assert (Hpen : 0 < principal * rate * inject_Z (eval1 - due))
      by (apply Qmult_lt_0_compat; assumption).
    rewrite <- (Qplus_0_r principal) at 1.
    apply Qplus_lt_r. exact Hpen.
  - apply Qplus_le_r.
    apply Qmult_le_l; [exact Hpr |].
    rewrite <- Zle_Qle. lia.
Qed.

Lemma total_due_grows_when_late_witness :
  exists t1 t2,
    calculate_total_due (1 # 100) 10000
      (Date.of_ymd 2024 1 1) (Date.of_ymd 2024 1 31) (Date.of_ymd 2024 2 10)
    = inr t1 /\
    calculate_total_due (1 # 100) 10000
      (Date.of_ymd 2024 1 1) (Date.of_ymd 2024 1 31) (Date.of_ymd 2024 2 20)
    = inr t2 /\
    10000 < t1 /\ t1 <= t2.
Proof.
  apply (total_due_grows_when_late (1 # 100) 10000);
    vm_compute; congruence.
Defined.

End InterestFacts.

(* ===================================================================== *)
(** * Properties of the document escrow *)
(* ===================================================================== *)

Section EscrowFacts.
Import Py Ledger LoanUtils.

Lemma releases_log (uid loan_id : string) (e : event) (w : world) :
  releases uid loan_id (log e w)
  = (releases uid loan_id w
     + if decide (e = UnlockDocuments uid loan_id) then 1 else 0)%nat.
Proof.
  unfold releases, log. simpl.
  rewrite filter_app, length_app. f_equal.
  rewrite filter_cons, filter_nil.
  destruct (decide (e = UnlockDocuments uid loan_id)); reflexivity.
Qed.

Lemma releases_update_loan (uid loan_id u l : string) fields (w : world) :
  releases uid loan_id (update_loan u l fields w) = releases uid loan_id w.
Proof.
  unfold update_loan. rewrite releases_log.
  destruct (decide _) as [Heq | _]; [discriminate Heq |].
  unfold releases. simpl. lia.
Qed.

Ltac count_releases :=
  rewrite ?releases_log, ?releases_update_loan, ?releases_log;
  repeat first [ rewrite decide_True by reflexivity
               | rewrite decide_False by discriminate ].

Lemma loans_log (e : event) (w : world) : loans (log e w) = loans w.
Proof. reflexivity. Qed.

Lemma release_fields_set_flag (d : doc) :
  documents_released
    (merge [("documentsReleased", VBool true);
            ("documentsReleasedAt", VServerTimestamp)] d) = true.
Proof.
  unfold documents_released, merge. simpl.
  rewrite lookup_insert_ne by discriminate.
  rewrite lookup_insert_eq. reflexivity.
Qed.

(** C1. For a loan stored in the ledger, two release checks in sequence
    never fail, perform at most one physical release between them, and
    when the first one releases (returns true) the second one finds the
    flag set, returns false and releases nothing, whatever its date. *)
Theorem release_at_most_once
    (eligible : doc -> Date.date -> Date.date -> bool)
    (uid loan_id : string) (due cur1 cur2 : Date.date) (w : world) (d : doc) :
  loans w !! (uid, loan_id) = Some d ->
  let first := check_and_release_documents eligible uid loan_id due cur1 w in
  let second :=
    check_and_release_documents eligible uid loan_id due cur2 (snd first) in
  (exists b1 b2, fst first = inr b1 /\ fst second = inr b2) /\
  (releases uid loan_id (snd second) <= releases uid loan_id w + 1)%nat /\
  (fst first = inr true ->
   fst second = inr false /\
   (exists d1, loans (snd first) !! (uid, loan_id) = Some d1 /\
               documents_released d1 = true) /\
   releases uid loan_id (snd second) = releases uid loan_id (snd first)).
Proof.
  intros Hd. unfold check_and_release_documents, get_loan.
  rewrite Hd.
  destruct (documents_released d) eqn:Hrel; simpl.
  - (* already released: both calls answer false *)
    rewrite Hd, Hrel. simpl. count_releases.
    split; [by exists false, false | split; [lia | discriminate]].
  - destruct (eligible d due cur1) eqn:Hel; simpl.
    + (* the first call releases *)
      unfold update_loan at 1. simpl.
      rewrite lookup_alter_eq, Hd. simpl.
      rewrite release_fields_set_flag. simpl. count_releases.
      split; [by exists true, false | split; [lia |]].
      intros _. split; [reflexivity | split; [| lia]].
      eexists. split; [reflexivity | apply release_fields_set_flag].
    + (* the first call declines; the second may release *)
      rewrite Hd, Hrel.
      destruct (eligible d due cur2); simpl; count_releases;
        (split; [eauto | split; [lia | discriminate]]).
Qed.

Lemma release_at_most_once_witness :
  let w :=
    World ∅ {[ ("u1", "loan1") := {[ "status" := VStr "approved" ]} ]} ∅ [] in
  let first :=
    check_and_release_documents due_date_reached "u1" "loan1"
      (Date.of_ymd 2024 1 31) (Date.of_ymd 2024 2 1) w in
  let second :=
    check_and_release_documents due_date_reached "u1" "loan1"
      (Date.of_ymd 2024 1 31) (Date.of_ymd 2024 2 2) (snd first) in
  fst first = inr true /\ fst second = inr false /\
  releases "u1" "loan1" (snd second) = 1%nat.
Proof.
  intros w first second.
  assert (Hd : loans w !! ("u1", "loan1")
               = Some ({[ "status" := VStr "approved" ]} : doc))
    by (subst w; simpl; apply lookup_singleton_eq).
  pose proof (release_at_most_once due_date_reached "u1" "loan1"
                (Date.of_ymd 2024 1 31) (Date.of_ymd 2024 2 1)
                (Date.of_ymd 2024 2 2) w _ Hd) as (_ & _ & Hsecond).
  assert (Hfirst : fst first = inr true).
  { subst first. unfold check_and_release_documents, get_loan.
    rewrite Hd. reflexivity. }
  destruct (Hsecond Hfirst) as (H2 & _ & Hcount).
  split; [exact Hfirst |]. split; [exact H2 |].
  fold first in Hcount. fold second in Hcount. rewrite Hcount.
  subst first. unfold check_and_release_documents, get_loan.
  rewrite Hd. reflexivity.
Defined.

End EscrowFacts.

(* ===================================================================== *)
(** * Properties of the identity score *)
(* ===================================================================== *)

Section IdentityScoreFacts.
Import App.

Lemma identity_score_cases (a b c d : bool) :
  fst (identity_trust_score a b c d)
  = Z.min ((if a then 40 else 0) + (if b then 30 else 0)
           + (if c then 20 else 0) + (if d then 10 else 0)) 100.
Proof. destruct a, b, c, d; reflexivity. Qed.

Lemma identity_score_range (a b c d : bool) :
  0 <= fst (identity_trust_score a b c d) <= 100.
Proof. rewrite identity_score_cases. destruct a, b, c, d; simpl; lia. Qed.

(** C4. The identity trust score is an integer between 0 and 100 for every
    combination of awarded buckets; it is exactly 100 when all four
    buckets (40, 30, 20, 10) are awarded and 0 when none is. *)
Theorem identity_score_bounds :
  (forall pan_verified aadhaar_verified phone_matches name_present,
     0 <= fst (identity_trust_score pan_verified aadhaar_verified
                 phone_matches name_present) <= 100) /\
  fst (identity_trust_score true true true true) = 100 /\
  fst (identity_trust_score false false false false) = 0.
Proof.
  split; [exact identity_score_range | split; reflexivity].
Qed.

End IdentityScoreFacts.

(* ===================================================================== *)
(** * The matcher agrees with the declarative reading of a pattern *)
(* ===================================================================== *)

Section MatcherFacts.
Import Py Re.

Lemma first_down_Some {A} (f : nat -> option A) (lo n : nat) (a : A) :
  first_down f lo n = Some a ->
  exists k, (lo <= k <= n)%nat /\ f k = Some a.
Proof.
  induction n as [| n IH]; simpl.
  - destruct (Nat.ltb_spec 0 lo) as [| Hlo]; [discriminate |].
    destruct (f 0%nat) eqn:Hf; [| discriminate].
    intros [= <-]. exists 0%nat. split; [lia | exact Hf].
  - destruct (Nat.ltb_spec (S n) lo) as [| Hlo]; [discriminate |].
    destruct (f (S n)) eqn:Hf.
    + intros [= <-]. exists (S n). split; [lia | exact Hf].
    + intros Hrec. destruct (IH Hrec) as (k & Hk & Hfk).
      exists k. split; [lia | exact Hfk].
Qed.

Lemma first_down_None {A} (f : nat -> option A) (lo n : nat) :
  first_down f lo n = None ->
  forall k, (lo <= k <= n)%nat -> f k = None.
Proof.
  induction n as [| n IH]; simpl; intros Hnone k Hk.
  - destruct (Nat.ltb_spec 0 lo) as [| Hlo]; [lia |].
    assert (k = 0)%nat as -> by lia.
    destruct (f 0%nat); [discriminate | reflexivity].
  - destruct (Nat.ltb_spec (S n) lo) as [| Hlo]; [lia |].
    destruct (f (S n)) eqn:Hf; [discriminate |].
    destruct (decide (k = S n)) as [-> | Hne]; [exact Hf |].
    apply IH; [exact Hnone | lia].
Qed.

Lemma run_take (cls : ascii -> bool) (s : list ascii) (k : nat) :
  (k <= run cls s)%nat ->
  Forall (fun c => cls c = true) (take k s) /\ length (take k s) = k.
Proof.
  revert k. induction s as [| c s IH]; intros k Hk; simpl in Hk.
  - assert (k = 0)%nat as -> by lia. split; [constructor | reflexivity].
  - destruct k as [| k]; [split; [constructor | reflexivity] |].
    destruct (cls c) eqn:Hc; [| lia].
    destruct (IH k ltac:(lia)) as [Hall Hlen].
    simpl. split; [constructor; assumption | by rewrite Hlen].
Qed.

Lemma run_prefix (cls : ascii -> bool) (pre s : list ascii) :
  Forall (fun c => cls c = true) pre -> (length pre <= run cls (pre ++ s))%nat.
Proof.
  induction 1 as [| c pre Hc _ IH]; simpl; [lia |].
  rewrite Hc. lia.
Qed.

Lemma last_char_cons (prev : option ascii) (c : ascii) (l : list ascii) :
  last_char prev (c :: l) = last_char (Some c) l.
Proof.
  unfold last_char. destruct l as [| c' l]; [reflexivity |].
  change (last (c :: c' :: l)) with (last (c' :: l)).
  destruct (last (c' :: l)) eqn:Hl; [reflexivity |].
  apply last_None in Hl. discriminate.
Qed.

Lemma last_char_app (prev : option ascii) (l1 l2 : list ascii) :
  last_char prev (l1 ++ l2) = last_char (last_char prev l1) l2.
Proof.
  revert prev. induction l1 as [| c l1 IH]; intros prev; [reflexivity |].
  simpl. rewrite !last_char_cons. apply IH.
Qed.

(** Whatever the matcher returns is a match of the pattern. *)
Lemma match_here_sound (p : pattern) :
  forall prev s m,
    match_here p prev s = Some m ->
    exists rest,
      s = whole m ++ rest /\ matches p prev (whole m) (groups m) rest.
Proof.
  induction p as [| it p IH]; intros prev s m; simpl.
  - intros [= <-]. exists s. split; [reflexivity | constructor].
  - destruct it as [cls lo hi cap |].
    + intros Hfd. apply first_down_Some in Hfd as (k & [Hlo Hhi] & Hk).
      destruct (match_here p (last_char prev (take k s)) (drop k s))
        as [m' |] eqn:Hm'; [| discriminate].
      injection Hk as <-. simpl.
      destruct (IH _ _ _ Hm') as (rest & Hs & Hmatch).
      assert (Hrun : (k <= run cls s)%nat).
      { destruct hi; simpl in Hhi; lia. }
      destruct (run_take cls s k Hrun) as [Hall Hlen].
      exists rest. split.
      * rewrite <- (take_drop k s) at 1. rewrite Hs. by rewrite <- app_assoc.
      * constructor; [exact Hall | | exact Hmatch].
        split; [lia |]. rewrite Hlen. destruct hi; simpl in Hhi; [lia | done].
    + destruct (boundary prev s) eqn:Hb; [| discriminate].
      intros Hm. destruct (IH _ _ _ Hm) as (rest & Hs & Hmatch).
      exists rest. split; [exact Hs |].
      constructor; [by rewrite <- Hs | exact Hmatch].
Qed.

(** Wherever the pattern matches, the matcher finds a match. *)
Lemma match_here_complete (p : pattern) prev m caps rest :
  matches p prev m caps rest -> is_Some (match_here p prev (m ++ rest)).
Proof.
  induction 1 as [prev rest
                 | cls lo hi cap p prev pre m caps rest Hall [Hlo Hhi] _ IH
                 | p prev m caps rest Hb _ IH]; simpl.
  - eauto.
  - destruct (first_down _ lo _) eqn:Hfd; [eauto |]. exfalso.
    eapply first_down_None with (k := length pre) in Hfd.
    + rewrite <- app_assoc in Hfd.
      rewrite take_app_length, drop_app_length in Hfd.
      destruct IH as [m' Hm']. rewrite Hm' in Hfd. discriminate.
    + split; [exact Hlo |].
      pose proof (run_prefix cls pre (m ++ rest) Hall) as Hrun.
      rewrite <- app_assoc.
      destruct hi; simpl; lia.
  - rewrite Hb. exact IH.
Qed.

Lemma search_from_Some (p : pattern) :
  forall s prev m,
    search_from p prev s = Some m ->
    exists pre rest,
      s = pre ++ whole m ++ rest /\
      matches p (last_char prev pre) (whole m) (groups m) rest.
Proof.
  induction s as [| c s IH]; intros prev m; simpl.
  - destruct (match_here p prev []) eqn:Hm; [| discriminate].
    intros [= <-]. apply match_here_sound in Hm as (rest & Hs & Hmatch).
    exists [], rest. split; [exact Hs | exact Hmatch].
  - destruct (match_here p prev (c :: s)) eqn:Hm.
    + intros [= <-]. apply match_here_sound in Hm as (rest & Hs & Hmatch).
      exists [], rest. split; [exact Hs | exact Hmatch].
    + intros Hrec. destruct (IH _ _ Hrec) as (pre & rest & Hs & Hmatch).
      exists (c :: pre), rest. split; [by rewrite Hs |].
      by rewrite last_char_cons.
Qed.

Lemma search_from_None (p : pattern) :
  forall s prev,
    search_from p prev s = None ->
    forall pre m caps rest,
      s = pre ++ m ++ rest -> ~ matches p (last_char prev pre) m caps rest.
Proof.
  induction s as [| c s IH]; intros prev Hnone pre m caps rest Hs Hmatch;
    simpl in Hnone.
  - destruct (match_here p prev []) eqn:Hm; [discriminate |].
    symmetry in Hs. apply app_eq_nil in Hs as [-> Hs].
    apply match_here_complete in Hmatch as [m' Hm'].
    change (last_char prev []) with prev in Hm'.
    rewrite Hs in Hm'. congruence.
  - destruct (match_here p prev (c :: s)) eqn:Hm; [discriminate |].
    destruct pre as [| c' pre].
    + apply match_here_complete in Hmatch as [m' Hm'].
      change (last_char prev []) with prev in Hm'.
      simpl in Hs. rewrite <- Hs in Hm'. congruence.
    + injection Hs as -> Hs.
      rewrite last_char_cons in Hmatch.
      exact (IH _ Hnone _ _ _ _ Hs Hmatch).
Qed.

(** [re.search] fails exactly when the pattern occurs nowhere. *)
Lemma search_None_iff (p : pattern) (t : string) :
  search p t = None <-> ~ occurs p (chars t).
Proof.
  unfold search, occurs. split.
  - intros Hnone (pre & m & caps & rest & Hs & Hmatch).
    exact (search_from_None p _ _ Hnone _ _ _ _ Hs Hmatch).
  - intros Hno. destruct (search_from p None (chars t)) as [m |] eqn:Hs;
      [| reflexivity].
    exfalso. apply Hno.
    apply search_from_Some in Hs as (pre & rest & Hs & Hmatch).
    by exists pre, (whole m), (groups m), rest.
Qed.

End MatcherFacts.

Section MatcherExamples.
Import Py Re App.

Example search_score_any_case :
  group1 <$> search score_re "Final sCORE:  87 ok" = Some (chars "87").
Proof. vm_compute. reflexivity. Qed.

Example search_score_three_digits :
  group1 <$> search score_re "Score: 1000" = Some (chars "100").
Proof. vm_compute. reflexivity. Qed.

Example search_score_needs_digit :
  search score_re "Score: high" = None.
Proof. vm_compute. reflexivity. Qed.

Example extract_aadhaar_spaced :
  extract_aadhaar "Aadhaar: 1234 5678 9012" = Some "123456789012".
Proof. vm_compute. reflexivity. Qed.

Example extract_aadhaar_word_boundary :
  extract_aadhaar "Aadhaar: 1234 5678 90123" = None.
Proof. vm_compute. reflexivity. Qed.

Example extract_name_runs_over_lines :
  extract_name ("Name: Asha Rao" +:+ newline +:+ "PAN: ABCDE1234F")
  = Some ("Asha Rao" +:+ newline +:+ "PAN").
Proof. vm_compute. reflexivity. Qed.

Example extract_name_blank :
  extract_name "Name: 123" = Some "" /\ truthy (extract_name "Name: 123") = false.
Proof. vm_compute. split; reflexivity. Qed.

End MatcherExamples.

(* ===================================================================== *)
(** * The score pattern *)
(* ===================================================================== *)

Section ScorePatternFacts.
Import Py Re.

Lemma matches_one_inv cls p prev m caps rest :
  matches (one cls :: p) prev m caps rest ->
  exists c m',
    m = c :: m' /\ cls c = true /\ matches p (Some c) m' caps rest.
Proof.
  unfold one. inversion 1 as [| ? ? ? ? ? ? pre m' caps' ? Hall [Hlo Hhi] Hm |];
    subst.
  destruct pre as [| c [| c' pre]]; simpl in Hlo, Hhi; try lia.
  apply Forall_cons in Hall as [Hc _].
  exists c, m'. split; [reflexivity | split; [exact Hc | exact Hm]].
Qed.

Lemma matches_one_intro (cls : ascii -> bool) p prev c m caps rest :
  cls c = true ->
  matches p (Some c) m caps rest ->
  matches (one cls :: p) prev (c :: m) caps rest.
Proof.
  intros Hc Hm. unfold one.
  apply (matches_rep cls 1 (Some 1%nat) false p prev [c] m caps rest).
  - by constructor.
  - split; simpl; lia.
  - exact Hm.
Qed.

Lemma matches_lit_ci (cs : list ascii) p :
  forall prev m caps rest,
    matches (map (fun c => one (is_char_ci c)) cs ++ p) prev m caps rest <->
    exists l m',
      m = l ++ m' /\
      Forall2 (fun c x => is_char_ci c x = true) cs l /\
      matches p (last_char prev l) m' caps rest.
Proof.
  induction cs as [| c cs IH]; intros prev m caps rest; simpl.
  - split.
    + intros Hm. exists [], m. split; [reflexivity | split; [constructor | exact Hm]].
    + intros (l & m' & -> & Hl & Hm). inversion Hl; subst. exact Hm.
  - split.
    + intros Hm. apply matches_one_inv in Hm as (x & m1 & -> & Hx & Hm).
      apply IH in Hm as (l & m' & -> & Hl & Hm).
      exists (x :: l), m'. split; [reflexivity |].
      split; [by constructor | by rewrite last_char_cons].
    + intros (l & m' & -> & Hl & Hm).
      inversion Hl as [| ? x ? l' Hx Hl']; subst. simpl.
      apply matches_one_intro; [exact Hx |].
      apply IH. exists l', m'. rewrite last_char_cons in Hm. eauto.
Qed.

Lemma is_char_ci_lower (cs l : list ascii) :
  Forall2 (fun c x => is_char_ci c x = true) cs l <->
  map lower_char l = map lower_char cs.
Proof.
  revert l. induction cs as [| c cs IH]; intros l.
  - split; [by inversion 1 |].
    destruct l; [constructor | discriminate].
  - split.
    + inversion 1 as [| ? x ? l' Hx Hl]; subst. simpl.
      apply Ascii.eqb_eq in Hx. rewrite Hx. f_equal. by apply IH.
    + destruct l as [| x l]; [discriminate |]. simpl. intros [= Hx Hl].
      constructor; [| by apply IH].
      unfold is_char_ci. rewrite Hx. apply Ascii.eqb_refl.
Qed.

(** The score pattern occurs exactly where the text holds [Score:] (in any
    case), optional white space and a digit. *)
Lemma score_re_occurs (t : string) :
  occurs score_re (chars t) <-> contains_score_pattern t.
Proof.
  unfold occurs, contains_score_pattern, score_re, lit_ci. split.
  - intros (pre & m & caps & rest & Hs & Hm).
    apply matches_lit_ci in Hm as (l & m1 & -> & Hl & Hm).
    inversion Hm as [| ? ? ? ? ? ? ws m2 caps2 ? Hws _ Hm2 |]; subst.
    inversion Hm2 as [| ? ? ? ? ? ? ds m3 caps3 ? Hds [Hlo _] Hm3 |]; subst.
    inversion Hm3; subst.
    destruct ds as [| d ds]; [simpl in Hlo; lia |].
    apply Forall_cons in Hds as [Hd _].
    exists pre, l, ws, d, (ds ++ rest).
    split; [| split; [| split; [exact Hws | exact Hd]]].
    + rewrite Hs. rewrite app_nil_r. by rewrite <- !app_assoc.
    + apply is_char_ci_lower in Hl. rewrite Hl. reflexivity.
  - intros (pre & l & ws & d & rest & Hs & Hl & Hws & Hd).
    exists pre, (l ++ ws ++ [d]), [[d]], rest.
    split; [rewrite Hs; by rewrite <- !app_assoc |].
    apply matches_lit_ci. exists l, (ws ++ [d]).
    split; [reflexivity |].
    split; [apply is_char_ci_lower; rewrite Hl; reflexivity |].
    apply (matches_rep is_space 0 None false); [exact Hws | split; [lia | done] |].
    rewrite <- (app_nil_r [d]) at 1.
    apply (matches_rep is_digit 1 (Some 3%nat) true [] _ [d] [] [] rest).
    + by constructor.
    + split; simpl; lia.
    + constructor.
Qed.

(** A response without the score pattern is one [re.search] rejects. *)
Lemma score_search_None (t : string) :
  ~ contains_score_pattern t -> search score_re t = None.
Proof.
  intros Hno. apply search_None_iff. by rewrite score_re_occurs.
Qed.

Lemma int_of_digits_bound (ds : list ascii) :
  Forall (fun c => is_digit c = true) ds ->
  0 <= int_of_digits ds < 10 ^ Z.of_nat (length ds).
Proof.
  unfold int_of_digits.
  assert (Hgen : forall acc k,
             0 <= acc < 10 ^ k -> 0 <= k ->
             Forall (fun c => is_digit c = true) ds ->
             0 <= fold_left (fun a c => 10 * a + digit_val c) ds acc
               < 10 ^ (k + Z.of_nat (length ds))).
  { induction ds as [| c ds IH]; intros acc k Hacc Hk Hall; simpl.
    - by rewrite Z.add_0_r.
    - apply Forall_cons in Hall as [Hc Hall].
      replace (k + Z.of_nat (S (length ds)))
        with ((k + 1) + Z.of_nat (length ds)) by lia.
      apply IH; [| lia | exact Hall].
      rewrite Z.pow_add_r by lia. change (10 ^ 1) with 10.
      assert (0 <= digit_val c <= 9).
      { unfold is_digit, in_range in Hc. unfold digit_val.
        apply andb_true_iff in Hc as [H1 H2].
        apply Nat.leb_le in H1, H2. lia. }
      lia. }
  intros Hall. apply (Hgen 0 0); [simpl; lia | lia | exact Hall].
Qed.

(** What the score pattern captures: one to three digits, so a number
    below 1000. *)
Lemma score_capture_bound (t : string) (m : mtch) :
  search score_re t = Some m ->
  0 <= int_of_digits (group1 m) <= 999.
Proof.
  unfold search. intros Hs.
  apply search_from_Some in Hs as (pre & rest & _ & Hm).
  unfold score_re, lit_ci in Hm.
  apply matches_lit_ci in Hm as (l & m1 & _ & _ & Hm).
  inversion Hm as [| ? ? ? ? ? ? ws m2 caps2 ? _ _ Hm2 |]; subst.
  inversion Hm2 as [| ? ? ? ? ? ? ds m3 caps3 ? Hds [_ Hhi] Hm3 |]; subst.
  unfold group1. match goal with H : _ = groups m |- _ => rewrite <- H end.
  simpl. pose proof (int_of_digits_bound ds Hds) as Hb.
  assert (10 ^ Z.of_nat (length ds) <= 10 ^ 3)
    by (apply Z.pow_le_mono_r; lia).
  lia.
Qed.

End ScorePatternFacts.

(* ===================================================================== *)
(** * Properties of the financial scoring route *)
(* ===================================================================== *)

Section FinancialFacts.
Import Py Re Ledger App.

Variable vision : string -> list ascii -> option string.
Variable scorer : string -> option string.
Variable secure_filename : string -> string.
Variable now_iso : string.

Lemma truthy_Some (o : option string) :
  truthy o = true -> exists s, o = Some s /\ s <> "".
Proof.
  destruct o as [s |]; [| discriminate]. simpl.
  intros H. exists s. split; [reflexivity |].
  intros ->. discriminate.
Qed.

Lemma truthy_intro (s : string) : s <> "" -> truthy (Some s) = true.
Proof.
  intros Hs. simpl. destruct (String.eqb_spec s ""); [contradiction | reflexivity].
Qed.

Lemma extracted_results_nil files :
  files = [] -> extracted_results vision secure_filename files = [].
Proof. by intros ->. Qed.

(** A request that reaches the scorer is answered 200 after one write. *)
Lemma financial_route_scored (form : financial_form) (w : world) uid :
  fin_uid form = Some uid -> uid <> "" ->
  extracted_results vision secure_filename (fin_files form) <> [] ->
  let results := extracted_results vision secure_filename (fin_files form) in
  let parsed := parse_score (default "" (scorer (combine results))) in
  run (verify_financial_documents vision scorer secure_filename now_iso form) w
  = (jsonify
       [("trust_score", VInt (fst parsed));
        ("results", results_json results);
        ("message", VStr "Financial documents evaluated successfully.");
        ("explanation", VStr (snd parsed))] 200,
     set_user uid (financial_fields now_iso (fst parsed) (snd parsed)) w).
Proof.
  intros Huid Hne Hres results parsed.
  unfold verify_financial_documents, run, bind, return_if, effect, ret, reply.
  rewrite Huid, (truthy_intro uid Hne). simpl.
  rewrite bool_decide_eq_false_2
    by (intros Hnil; apply Hres; by apply extracted_results_nil).
  rewrite bool_decide_eq_false_2 by exact Hres.
  fold results. fold parsed.
  destruct parsed as [score explanation]. reflexivity.
Qed.

(** Every other request is answered 400 and writes nothing. *)
Lemma financial_route_refused (form : financial_form) (w : world) :
  truthy (fin_uid form) = false \/
  extracted_results vision secure_filename (fin_files form) = [] ->
  exists resp,
    run (verify_financial_documents vision scorer secure_filename now_iso form) w
    = (resp, w) /\ status resp = 400.
Proof.
  intros Hbad.
  unfold verify_financial_documents, run, bind, return_if, effect, ret, reply.
  destruct (truthy (fin_uid form)); simpl; [| eauto].
  destruct Hbad as [| Hres]; [discriminate |].
  destruct (decide (fin_files form = [])) as [Hnil | Hnn].
  - rewrite bool_decide_eq_true_2 by exact Hnil. eauto.
  - rewrite bool_decide_eq_false_2 by exact Hnn.
    rewrite bool_decide_eq_true_2 by exact Hres. eauto.
Qed.

Lemma lookup_financial_score (score : Z) (explanation uid : string) (w : world) :
  exists d,
    users (set_user uid (financial_fields now_iso score explanation) w) !! uid
    = Some d /\
    d !! "trust_score.financial_score" = Some (VInt score) /\
    d !! "trust_score.financial_history"
    = Some (VList [VMap [("score", VInt score);
                         ("reason", VStr explanation);
                         ("date", VStr now_iso)]]).
Proof.
  eexists. unfold set_user. simpl. rewrite lookup_insert_eq.
  split; [reflexivity |]. unfold merge. simpl. split.
  - rewrite !lookup_insert_ne by discriminate. apply lookup_insert_eq.
  - apply lookup_insert_eq.
Qed.

(** C7. When the scorer's response holds no [Score: N] pattern, the
    financial route does not fail: it answers 200 with the fallback score 5
    and the fixed, non-empty explanation, and stores both in the user's
    trust-score record. *)
Theorem financial_fallback_on_unparsable_response
    (form : financial_form) (w : world) (uid : string) :
  fin_uid form = Some uid -> uid <> "" ->
  extracted_results vision secure_filename (fin_files form) <> [] ->
  ~ contains_score_pattern
      (default ""
         (scorer (combine (extracted_results vision secure_filename
                             (fin_files form))))) ->
  exists resp w' d,
    run (verify_financial_documents vision scorer secure_filename now_iso form) w
    = (resp, w') /\
    status resp = 200 /\
    dict_get "trust_score" (body resp) = Some (VInt 5) /\
    dict_get "explanation" (body resp) = Some (VStr default_explanation) /\
    default_explanation <> "" /\
    users w' !! uid = Some d /\
    d !! "trust_score.financial_score" = Some (VInt 5) /\
    d !! "trust_score.financial_history"
    = Some (VList [VMap [("score", VInt 5);
                         ("reason", VStr default_explanation);
                         ("date", VStr now_iso)]]).
Proof.
  intros Huid Hne Hres Hno.
  pose proof (financial_route_scored form w uid Huid Hne Hres) as Hrun.
  simpl in Hrun.
  assert (Hparse :
            parse_score
              (default ""
                 (scorer (combine (extracted_results vision secure_filename
                                     (fin_files form)))))
            = (5, default_explanation)).
  { unfold parse_score. by rewrite (score_search_None _ Hno). }
  rewrite Hparse in Hrun. simpl in Hrun.
  destruct (lookup_financial_score 5 default_explanation uid w)
    as (d & Hd & Hscore & Hhist).
  eexists _, _, d. split; [exact Hrun |].
  repeat split; try assumption; discriminate.
Qed.

End FinancialFacts.

Lemma financial_fallback_on_unparsable_response_witness :
  let vision := fun (_ : string) (_ : list ascii) => Some "Invalid financial document" in
  let scorer := fun _ : string => Some "I cannot evaluate these documents." in
  let form :=
    App.FinancialForm (Some "u1") [App.Upload "image/png" "bill.png" []] in
  exists resp w' d,
    App.run (App.verify_financial_documents vision scorer (fun n => n)
               "2024-02-01T00:00:00+00:00" form) Ledger.empty_world
    = (resp, w') /\
    App.status resp = 200 /\
    Py.dict_get "trust_score" (App.body resp) = Some (Py.VInt 5) /\
    Py.dict_get "explanation" (App.body resp)
    = Some (Py.VStr App.default_explanation) /\
    App.default_explanation <> "" /\
    Ledger.users w' !! "u1" = Some d /\
    d !! "trust_score.financial_score" = Some (Py.VInt 5) /\
    d !! "trust_score.financial_history"
    = Some (Py.VList [Py.VMap [("score", Py.VInt 5);
                               ("reason", Py.VStr App.default_explanation);
                               ("date", Py.VStr "2024-02-01T00:00:00+00:00")]]).
Proof.
  intros vision scorer form.
  apply (financial_fallback_on_unparsable_response vision scorer (fun n => n)
           "2024-02-01T00:00:00+00:00" form Ledger.empty_world "u1").
  - reflexivity.
  - discriminate.
  - vm_compute. discriminate.
  - intros Hc. apply score_re_occurs in Hc. revert Hc.
    apply search_None_iff. vm_compute. reflexivity.
Defined.

(* ===================================================================== *)
(** * Properties of the identity verification route *)
(* ===================================================================== *)

Section IdentityFacts.
Import Py Re Ledger App.

Variable vision : string -> list ascii -> option string.
Variable secure_filename : string -> string.
Variable now_iso : string.

(** The PAN check either stops the route with a 403 or reports a
    verified PAN; only the second branch of the code reads the
    government records. *)
Lemma verify_pan_bypass (name phone : string) (w : world) :
  verify_pan bypass_pan name phone w
  = (Continue (true, "PAN bypass code detected."), w).
Proof. reflexivity. Qed.

Lemma verify_pan_lookup (pan name phone : string) (w : world) :
  pan <> bypass_pan ->
  (exists r,
     verify_pan pan name phone w = (Return r, log (GetGovRecord pan) w) /\
     status r = 403 /\
     match gov_records w !! pan with
     | None => True
     | Some g =>
         gov_verified g = false \/ lower name <> lower (gov_name g)
         \/ phone <> gov_phone g
     end) \/
  (exists msg g,
     verify_pan pan name phone w
     = (Continue (true, msg), log (GetGovRecord pan) w) /\
     gov_records w !! pan = Some g /\
     gov_verified g = true /\ lower name = lower (gov_name g) /\
     phone = gov_phone g).
Proof.
  intros Hpan. unfold verify_pan.
  destruct (String.eqb_spec pan bypass_pan) as [| _]; [contradiction |].
  unfold bind, lift, get_gov_record, reply, ret.
  destruct (gov_records w !! pan) as [g |]; [| left; eauto].
  destruct (gov_verified g) eqn:Hv; simpl; [| left; eauto].
  destruct (String.eqb_spec (lower name) (lower (gov_name g))) as [Hn | Hn];
    simpl; [| left; eauto 6].
  destruct (String.eqb_spec phone (gov_phone g)) as [Hp | Hp];
    simpl; [| left; eauto 6].
  right. eexists _, g. repeat split; assumption.
Qed.

Lemma journal_set_user uid fields (w : world) :
  journal (set_user uid fields w) = journal w ++ [SetUser uid].
Proof. reflexivity. Qed.

(** The shape of every run that gets past the request checks. *)
Lemma identity_route_cases (form : identity_form) (w : world) uid phone :
  id_uid form = Some uid -> uid <> "" ->
  id_phone form = Some phone -> phone <> "" ->
  extracted_results vision secure_filename (id_files form) <> [] ->
  let combined :=
    combine (extracted_results vision secure_filename (id_files form)) in
  let pan_number := extract_pan combined in
  let name_extracted := extract_name combined in
  let r := run (verify_identity_documents vision secure_filename now_iso form) w in
  (truthy pan_number && truthy name_extracted = false /\
   status (fst r) = 403 /\ snd r = w) \/
  (truthy pan_number && truthy name_extracted = true /\
   exists resp w1,
     verify_pan (default "" pan_number) (default "" name_extracted) phone w
     = (Return resp, w1) /\ r = (resp, w1)) \/
  (truthy pan_number && truthy name_extracted = true /\
   exists pan_verified msg w1 score reason bdy,
     verify_pan (default "" pan_number) (default "" name_extracted) phone w
     = (Continue (pan_verified, msg), w1) /\
     score = fst (identity_trust_score pan_verified
                    (truthy (extract_aadhaar combined))
                    (truthy (extract_phone combined)
                     && bool_decide (extract_phone combined = Some phone))
                    (truthy name_extracted)) /\
     r = (jsonify bdy 200, set_user uid (identity_fields now_iso score reason) w1) /\
     dict_get "trust_score" bdy = Some (VInt score) /\
     dict_get "pan_verified" bdy = Some (VBool pan_verified)).
Proof.
  intros Huid Hne Hphone Hpne Hres combined pan_number name_extracted r.
  subst r.
  unfold verify_identity_documents, run, bind, return_if, effect, ret, reply.
  rewrite Huid, Hphone, (truthy_intro uid Hne), (truthy_intro phone Hpne).
  simpl.
  rewrite bool_decide_eq_false_2
    by (intros Hnil; apply Hres; by rewrite Hnil).
  rewrite bool_decide_eq_false_2 by exact Hres.
  fold combined. fold pan_number. fold name_extracted.
  destruct (truthy pan_number) eqn:Hp; simpl; [| left; eauto].
  destruct (truthy name_extracted) eqn:Hn; simpl; [| left; eauto].
  right.
  destruct (verify_pan (default "" pan_number) (default "" name_extracted)
              phone w) as [[[pan_verified msg] | resp] w1] eqn:Hv.
  - right. split; [reflexivity |].
    cbn [fst].
    destruct (identity_trust_score pan_verified _ _ true)
      as [score parts] eqn:Hscore.
    eexists pan_verified, msg, w1, score, _, _.
    split; [reflexivity |]. split; [by rewrite Hscore |].
    split; [reflexivity |]. split; reflexivity.
  - left. split; [reflexivity |]. eauto.
Qed.

Lemma truthy_default (o : option string) :
  truthy o = true -> o = Some (default "" o).
Proof. destruct o; [reflexivity | discriminate]. Qed.

(** C5, as the code has it. For a request that passes the input checks,
    the route answers 403 exactly when the PAN or the name is not
    extracted, or the PAN is not the bypass code and its government record
    is missing, is not verified, or differs from the extracted name (case
    ignored) or from the submitted phone; a 403 leaves every user record
    as it was, and the only other answer is 200. *)
Theorem identity_rejection_conditions
    (form : identity_form) (w : world) (uid phone : string) :
  id_uid form = Some uid -> uid <> "" ->
  id_phone form = Some phone -> phone <> "" ->
  extracted_results vision secure_filename (id_files form) <> [] ->
  let combined :=
    combine (extracted_results vision secure_filename (id_files form)) in
  let pan_number := extract_pan combined in
  let name_extracted := extract_name combined in
  let r := run (verify_identity_documents vision secure_filename now_iso form) w in
  (status (fst r) = 403 <->
   truthy pan_number = false \/ truthy name_extracted = false \/
   (pan_number <> Some bypass_pan /\
    match gov_records w !! default "" pan_number with
    | None => True
    | Some g =>
        gov_verified g = false
        \/ lower (default "" name_extracted) <> lower (gov_name g)
        \/ phone <> gov_phone g
    end)) /\
  (status (fst r) = 403 -> users (snd r) = users w) /\
  (status (fst r) = 403 \/ status (fst r) = 200).
Proof.
  intros Huid Hne Hphone Hpne Hres combined pan_number name_extracted r.
  destruct (identity_route_cases form w uid phone Huid Hne Hphone Hpne Hres)
    as [(Hext & Hst & Hw) | [(Hext & resp & w1 & Hv & Hr)
                            | (Hext & pv & msg & w1 & score & reason & bdy
                               & Hv & _ & Hr & _)]];
    fold combined in Hext; fold pan_number in Hext;
    fold name_extracted in Hext; fold r.
  - (* extraction failed *)
    fold combined pan_number name_extracted r in Hst, Hw.
    split; [| split; [intros _; by rewrite Hw | by left]].
    split; [intros _ | intros _; exact Hst].
    apply andb_false_iff in Hext as [? | ?]; auto.
  - (* the PAN check rejected the request *)
    fold combined pan_number name_extracted in Hv. fold r in Hr.
    apply andb_true_iff in Hext as [Hp Hn].
    destruct (decide (default "" pan_number = bypass_pan)) as [Hb | Hb].
    { rewrite Hb, verify_pan_bypass in Hv. discriminate. }
    destruct (verify_pan_lookup _ (default "" name_extracted) phone w Hb)
      as [(r' & Hv' & Hst & Hcond) | (msg & g & Hv' & _)];
      rewrite Hv' in Hv; [| discriminate].
    injection Hv as <- <-. rewrite Hr. simpl.
    split; [| split; [by intros _ | by left]].
    split; [intros _ | intros _; exact Hst].
    right. right. split; [| exact Hcond].
    intros Heq. apply Hb. by rewrite Heq.
  - (* verified and scored *)
    fold combined pan_number name_extracted in Hv. fold r in Hr.
    apply andb_true_iff in Hext as [Hp Hn].
    rewrite Hr. simpl.
    split; [| split; [discriminate | by right]].
    split; [discriminate |].
    intros [Hp' | [Hn' | [Hnb Hcond]]]; [congruence | congruence |].
    exfalso.
    destruct (decide (default "" pan_number = bypass_pan)) as [Hb | Hb].
    { apply Hnb. rewrite (truthy_default _ Hp). by rewrite Hb. }
    destruct (verify_pan_lookup _ (default "" name_extracted) phone w Hb)
      as [(r' & Hv' & _) | (msg' & g & _ & Hg & Hver & Hname & Hph)].
    + rewrite Hv' in Hv. discriminate.
    + rewrite Hg in Hcond.
      destruct Hcond as [? | [? | ?]]; congruence.
Qed.

(** C6. When the extracted PAN is the bypass code and a name is extracted,
    the route reads no government record, reports the PAN as verified and
    answers with a score of at least 50. *)
Theorem bypass_pan_verified_without_lookup
    (form : identity_form) (w : world) (uid phone : string) :
  id_uid form = Some uid -> uid <> "" ->
  id_phone form = Some phone -> phone <> "" ->
  extracted_results vision secure_filename (id_files form) <> [] ->
  let combined :=
    combine (extracted_results vision secure_filename (id_files form)) in
  extract_pan combined = Some bypass_pan ->
  truthy (extract_name combined) = true ->
  exists bdy w' score,
    run (verify_identity_documents vision secure_filename now_iso form) w
    = (jsonify bdy 200, w') /\
    dict_get "pan_verified" bdy = Some (VBool true) /\
    dict_get "trust_score" bdy = Some (VInt score) /\
    50 <= score <= 100 /\
    journal w' = journal w ++ [SetUser uid] /\
    (forall pan, GetGovRecord pan ∉ [SetUser uid]).
Proof.
  intros Huid Hne Hphone Hpne Hres combined Hpan Hname.
  destruct (identity_route_cases form w uid phone Huid Hne Hphone Hpne Hres)
    as [(Hext & _) | [(_ & resp & w1 & Hv & _)
                     | (_ & pv & msg & w1 & score & reason & bdy
                        & Hv & Hscore & Hr & Hts & Hpv)]];
    try fold combined in Hext; try fold combined in Hv;
    try fold combined in Hscore.
  - rewrite Hpan, Hname in Hext. discriminate.
  - rewrite Hpan in Hv. simpl in Hv. rewrite verify_pan_bypass in Hv.
    discriminate.
  - rewrite Hpan in Hv. simpl in Hv. rewrite verify_pan_bypass in Hv.
    injection Hv as <- <- <-.
    exists bdy, (set_user uid (identity_fields now_iso score reason) w), score.
    split; [exact Hr |]. split; [exact Hpv |]. split; [exact Hts |].
    split; [| split; [apply journal_set_user |]].
    + rewrite Hscore, Hname, identity_score_cases.
      destruct (truthy (extract_aadhaar combined)),
        (truthy (extract_phone combined)
         && bool_decide (extract_phone combined = Some phone)); simpl; lia.
    + intros pan Hin. apply list_elem_of_singleton in Hin. discriminate.
Qed.

End IdentityFacts.

Section IdentityExamples.
Import Py Re Ledger App Samples.

Example card_extraction :
  let combined :=
    combine (extracted_results (card "ABCDE1234F") (fun n => n)
               (id_files one_card_form)) in
  extract_pan combined = Some "ABCDE1234F" /\
  extract_name combined = Some "Asha Rao" /\
  extract_phone combined = Some "9876543210" /\
  extract_aadhaar combined = None.
Proof. vm_compute. repeat split. Qed.

Lemma identity_rejection_conditions_witness :
  let w := gov_world "ABCDE1234F" (GovRecord false "Asha Rao" "9876543210") in
  let r :=
    run (verify_identity_documents (card "ABCDE1234F") (fun n => n)
           "2024-02-01T00:00:00+00:00" one_card_form) w in
  status (fst r) = 403 /\ users (snd r) = users w.
Proof.
  intros w r.
  destruct (identity_rejection_conditions (card "ABCDE1234F") (fun n => n)
              "2024-02-01T00:00:00+00:00" one_card_form w "u1" "9876543210")
    as (Hiff & Hsame & _);
    [reflexivity | discriminate | reflexivity | discriminate
    | vm_compute; discriminate |].
  assert (Hst : status (fst r) = 403).
  { apply Hiff. right. right. split; [vm_compute; discriminate |].
    vm_compute. by left. }
  split; [exact Hst | exact (Hsame Hst)].
Defined.

Lemma bypass_pan_verified_without_lookup_witness :
  exists bdy w' score,
    run (verify_identity_documents (card bypass_pan) (fun n => n)
           "2024-02-01T00:00:00+00:00" one_card_form) empty_world
    = (jsonify bdy 200, w') /\
    dict_get "pan_verified" bdy = Some (VBool true) /\
    dict_get "trust_score" bdy = Some (VInt score) /\
    50 <= score <= 100 /\
    journal w' = journal empty_world ++ [SetUser "u1"] /\
    (forall pan, GetGovRecord pan ∉ [SetUser "u1"]).
Proof.
  apply (bypass_pan_verified_without_lookup (card bypass_pan) (fun n => n)
           "2024-02-01T00:00:00+00:00" one_card_form empty_world
           "u1" "9876543210");
    [reflexivity | discriminate | reflexivity | discriminate
    | vm_compute; discriminate | vm_compute; reflexivity
    | vm_compute; reflexivity].
Defined.

(** C5 as stated fails in both directions. A record that agrees with the
    extracted name and with both phones but is not marked verified is
    rejected; and with the bypass code a record with another name is not
    consulted, so the request is accepted. *)
Lemma identity_rejection_not_exactly_field_mismatch :
  ~ (forall vision secure_filename now_iso form w uid phone,
       id_uid form = Some uid -> uid <> "" ->
       id_phone form = Some phone -> phone <> "" ->
       extracted_results vision secure_filename (id_files form) <> [] ->
       let combined :=
         combine (extracted_results vision secure_filename (id_files form)) in
       status (fst (run (verify_identity_documents vision secure_filename
                           now_iso form) w)) = 403 ->
       truthy (extract_pan combined) = false \/
       truthy (extract_name combined) = false \/
       exists g,
         gov_records w !! default "" (extract_pan combined) = Some g /\
         (lower (default "" (extract_name combined)) <> lower (gov_name g)
          \/ extract_phone combined <> Some (gov_phone g)
          \/ phone <> gov_phone g))
  /\
  ~ (forall vision secure_filename now_iso form w uid phone,
       id_uid form = Some uid -> uid <> "" ->
       id_phone form = Some phone -> phone <> "" ->
       extracted_results vision secure_filename (id_files form) <> [] ->
       let combined :=
         combine (extracted_results vision secure_filename (id_files form)) in
       (exists g,
          gov_records w !! default "" (extract_pan combined) = Some g /\
          lower (default "" (extract_name combined)) <> lower (gov_name g)) ->
       status (fst (run (verify_identity_documents vision secure_filename
                           now_iso form) w)) = 403).
Proof.
  split; intros H.
  - specialize (H (card "ABCDE1234F") (fun n => n) "" one_card_form
                  (gov_world "ABCDE1234F"
                     (GovRecord false "Asha Rao" "9876543210"))
                  "u1" "9876543210").
    destruct H as [H | [H | (g & Hg & Hmis)]];
      [reflexivity | discriminate | reflexivity | discriminate
      | vm_compute; discriminate | vm_compute; reflexivity
      | vm_compute in H; discriminate | vm_compute in H; discriminate |].
    vm_compute in Hg. injection Hg as <-.
    vm_compute in Hmis. destruct Hmis as [Hm | [Hm | Hm]]; by apply Hm.
  - specialize (H (card bypass_pan) (fun n => n) "" one_card_form
                  (gov_world bypass_pan
                     (GovRecord true "Someone Else" "9876543210"))
                  "u1" "9876543210").
    assert (Hst : (200 : Z) = 403); [| discriminate Hst].
    apply H;
      [reflexivity | discriminate | reflexivity | discriminate
      | vm_compute; discriminate |].
    eexists. split; [vm_compute; reflexivity | vm_compute; discriminate].
Qed.

End IdentityExamples.

(* ===================================================================== *)
(** * Properties of loan creation *)
(* ===================================================================== *)

Section LoanRequestFacts.
Import Py Ledger App Samples.

Variable float_of_str : string -> option fnum.
Variable now : Z.


End LoanRequestFacts.

Section LoanRequestExamples.
Import Py Ledger App Samples.


(** An amount that converts to NaN passes the check [amount <= 0]. *)
Example loan_request_nan :
  status (fst (run (loan_request (fun _ => Some NaN) 0
                      (LoanRequestData (Some "u1") (Some (VStr "nan"))
                         (Some VNull) (Some VNull)) (inr "L1"))
                 empty_world)) = 200.
Proof. reflexivity. Qed.


End LoanRequestExamples.

(* ===================================================================== *)
(** * Properties of the decision route *)
(* ===================================================================== *)

Section DecisionFacts.
Import Py Ledger App Samples.

Lemma is_decision_inv (v : option value) :
  is_decision v = true ->
  v = Some (VStr "approved") \/ v = Some (VStr "rejected").
Proof.
  destruct v as [[| | | | s | | | |] |]; try discriminate. simpl.
  intros H. apply orb_true_iff in H as [H | H];
    apply String.eqb_eq in H; subst; auto.
Qed.

(** What one decision call does to the ledger. *)
Lemma loan_decision_run (uid loan_id : string) (decision : option value)
    (w : world) :
  let r := run (loan_decision uid loan_id decision) w in
  (is_decision decision = false /\ status (fst r) = 400 /\ snd r = w) \/
  (is_decision decision = true /\ loans w !! (uid, loan_id) = None /\
   status (fst r) = 404 /\ snd r = log (GetLoan uid loan_id) w) \/
  (exists s d,
     decision = Some (VStr s) /\ (s = "approved" \/ s = "rejected") /\
     loans w !! (uid, loan_id) = Some d /\
     status (fst r) = 200 /\
     snd r = update_loan uid loan_id [("status", VStr s)]
               (log (GetLoan uid loan_id) w)).
Proof.
  intros r. subst r.
  unfold loan_decision, run, bind, return_if, lift, effect, ret, reply, get_loan.
  destruct (is_decision decision) eqn:Hdec; simpl; [| left; auto].
  right.
  destruct (loans w !! (uid, loan_id)) as [d |] eqn:Hloan; simpl.
  - right. apply is_decision_inv in Hdec as [-> | ->]; simpl;
      eexists _, d; (split; [reflexivity |]); auto.
  - left. auto.
Qed.

Lemma status_after_update (uid loan_id u l s : string) (w : world) :
  loan_status_of (update_loan u l [("status", VStr s)] w) uid loan_id
  = if decide ((u, l) = (uid, loan_id))
    then loans w !! (uid, loan_id) ≫= fun _ => Some (VStr s)
    else loan_status_of w uid loan_id.
Proof.
  unfold loan_status_of, update_loan. simpl.
  destruct (decide ((u, l) = (uid, loan_id))) as [[= -> ->] | Hne].
  - rewrite lookup_alter_eq.
    destruct (loans w !! (uid, loan_id)) as [d |]; [| reflexivity].
    simpl. unfold merge. simpl. apply lookup_insert_eq.
  - by rewrite lookup_alter_ne.
Qed.

Lemma decision_step (c : string * string * option value) (w : world)
    (uid loan_id : string) :
  let w' := snd (run (loan_decision (fst (fst c)) (snd (fst c)) (snd c)) w) in
  loan_status_of w' uid loan_id = loan_status_of w uid loan_id \/
  loan_status_of w' uid loan_id = Some (VStr "approved") \/
  loan_status_of w' uid loan_id = Some (VStr "rejected").
Proof.
  destruct c as [[u l] dec]. simpl.
  destruct (loan_decision_run u l dec w)
    as [(_ & _ & ->) | [(_ & _ & _ & ->) | (s & d & _ & Hs & Hd & _ & ->)]];
    [by left | by left |].
  rewrite status_after_update.
  destruct (decide ((u, l) = (uid, loan_id))) as [[= <- <-] | _]; [| by left].
  unfold log. simpl. rewrite Hd. simpl.
  destruct Hs as [-> | ->]; auto.
Qed.

(** C9, as the code has it. A decision on an existing loan stores the
    decision whatever the status was; after any sequence of decision calls
    a loan has the status it started with or one of approved and rejected,
    so nothing moves a decided loan back to pending. *)
Theorem decisions_overwrite_status
    (calls : list (string * string * option value)) (w : world)
    (uid loan_id : string) :
  (forall s d,
     (s = "approved" \/ s = "rejected") ->
     loans w !! (uid, loan_id) = Some d ->
     loan_status_of
       (snd (run (loan_decision uid loan_id (Some (VStr s))) w)) uid loan_id
     = Some (VStr s)) /\
  (loan_status_of (decide_all calls w) uid loan_id = loan_status_of w uid loan_id
   \/ loan_status_of (decide_all calls w) uid loan_id = Some (VStr "approved")
   \/ loan_status_of (decide_all calls w) uid loan_id = Some (VStr "rejected")).
Proof.
  split.
  - intros s d Hs Hd.
    destruct (loan_decision_run uid loan_id (Some (VStr s)) w)
      as [(Hdec & _) | [(_ & Hnone & _) | (s' & d' & [= <-] & _ & _ & _ & ->)]].
    + destruct Hs as [-> | ->]; discriminate.
    + congruence.
    + rewrite status_after_update, decide_True by reflexivity.
      unfold log. simpl. by rewrite Hd.
  - revert w. unfold decide_all.
    induction calls as [| c calls IH]; intros w; simpl; [by left |].
    destruct (IH (snd (run (loan_decision (fst (fst c)) (snd (fst c)) (snd c)) w)))
      as [Hsame | Hdecided]; [| by right].
    rewrite Hsame. apply decision_step.
Qed.

Lemma decisions_overwrite_status_witness :
  loan_status_of
    (snd (run (loan_decision "u1" "loan1" (Some (VStr "approved")))
            (loan_world "pending"))) "u1" "loan1"
  = Some (VStr "approved").
Proof.
  apply (decisions_overwrite_status [] (loan_world "pending") "u1" "loan1")
    with (d := {[ "status" := VStr "pending" ]}).
  - by left.
  - apply lookup_singleton_eq.
Defined.

(** C9 as stated fails: one decision call moves a rejected loan to
    approved. *)
Lemma rejected_loan_can_be_approved :
  ~ (forall calls w uid loan_id,
       loan_status_of w uid loan_id = Some (VStr "rejected") ->
       loan_status_of (decide_all calls w) uid loan_id
       <> Some (VStr "approved") /\
       loan_status_of (decide_all calls w) uid loan_id
       <> Some (VStr "pending")).
Proof.
  intros H.
  destruct (H [("u1", "loan1", Some (VStr "approved"))]
              (loan_world "rejected") "u1" "loan1") as [Hno _];
    [reflexivity |].
  apply Hno. reflexivity.
Qed.

End DecisionFacts.

(* ===================================================================== *)
(** * Stored scores stay within 0..100 *)
(* ===================================================================== *)

Section StoredScoreFacts.
Import Py Re Ledger App Samples.

Variable vision : string -> list ascii -> option string.
Variable scorer : string -> option string.
Variable secure_filename : string -> string.
Variable now_iso : string.

Lemma parse_score_range (t : string) : 0 <= fst (parse_score t) <= 100.
Proof.
  unfold parse_score. destruct (search score_re t); simpl; lia.
Qed.

Lemma truthy_cases (o : option string) :
  truthy o = false \/ exists s, o = Some s /\ s <> "".
Proof.
  destruct (truthy o) eqn:H; [right; by apply truthy_Some | by left].
Qed.

(** A request that fails the input checks is answered 400 untouched. *)
Lemma identity_route_refused (form : identity_form) (w : world) :
  truthy (id_uid form) = false \/ truthy (id_phone form) = false \/
  extracted_results vision secure_filename (id_files form) = [] ->
  exists resp,
    run (verify_identity_documents vision secure_filename now_iso form) w
    = (resp, w) /\ status resp = 400.
Proof.
  intros Hbad.
  unfold verify_identity_documents, run, bind, return_if, effect, ret, reply.
  destruct (truthy (id_uid form)); simpl; [| eauto].
  destruct (truthy (id_phone form)); simpl; [| eauto].
  destruct Hbad as [| [| Hres]]; [discriminate | discriminate |].
  destruct (decide (id_files form = [])) as [Hnil | Hnn].
  - rewrite bool_decide_eq_true_2 by exact Hnil. eauto.
  - rewrite bool_decide_eq_false_2 by exact Hnn.
    rewrite bool_decide_eq_true_2 by exact Hres. eauto.
Qed.

Lemma users_log (e : event) (w : world) : users (log e w) = users w.
Proof. reflexivity. Qed.

Lemma verify_pan_users (pan name phone : string) (w w1 : world) o :
  verify_pan pan name phone w = (o, w1) -> users w1 = users w.
Proof.
  destruct (decide (pan = bypass_pan)) as [-> | Hne].
  - rewrite verify_pan_bypass. by intros [= _ <-].
  - destruct (verify_pan_lookup pan name phone w Hne)
      as [(r & -> & _) | (msg & g & -> & _)]; by intros [= _ <-].
Qed.

(** C10, as the code has it. The financial route and the identity route
    write a user's trust-score record only with a score between 0 and 100,
    as the field and as the single history entry; a request they refuse
    changes no user record. The score pattern captures at most three
    digits, and the value read from it is clamped: 999 is stored as 100. *)
Theorem scoring_routes_store_scores_in_range :
  (forall (form : financial_form) (w : world),
     let r :=
       run (verify_financial_documents vision scorer secure_filename now_iso
              form) w in
     (status (fst r) = 400 /\ snd r = w) \/
     (exists uid score explanation,
        status (fst r) = 200 /\ 0 <= score <= 100 /\
        snd r = set_user uid (financial_fields now_iso score explanation) w)) /\
  (forall (form : identity_form) (w : world),
     let r :=
       run (verify_identity_documents vision secure_filename now_iso form) w in
     (status (fst r) <> 200 /\ users (snd r) = users w) \/
     (exists uid score reason w1,
        status (fst r) = 200 /\ 0 <= score <= 100 /\ users w1 = users w /\
        snd r = set_user uid (identity_fields now_iso score reason) w1)) /\
  (forall t m,
     search score_re t = Some m -> 0 <= int_of_digits (group1 m) <= 999) /\
  (forall t, 0 <= fst (parse_score t) <= 100) /\
  fst (parse_score "Score: 999") = 100.
Proof.
  split; [| split; [| split; [| split]]].
  - intros form w r. subst r.
    destruct (truthy_cases (fin_uid form)) as [Hu | (uid & Hu & Hne)].
    { left. destruct (financial_route_refused vision scorer secure_filename
                        now_iso form w (or_introl Hu)) as (resp & -> & Hst).
      by split. }
    destruct (decide (extracted_results vision secure_filename (fin_files form)
                      = [])) as [Hres | Hres].
    { left. destruct (financial_route_refused vision scorer secure_filename
                        now_iso form w (or_intror Hres)) as (resp & -> & Hst).
      by split. }
    right.
    rewrite (financial_route_scored vision scorer secure_filename now_iso
               form w uid Hu Hne Hres).
    eexists uid, _, _. split; [reflexivity |].
    split; [apply parse_score_range | reflexivity].
  - intros form w r. subst r.
    destruct (truthy_cases (id_uid form)) as [Hu | (uid & Hu & Hne)].
    { left. destruct (identity_route_refused form w (or_introl Hu))
        as (resp & -> & Hst). simpl. rewrite Hst. by split. }
    destruct (truthy_cases (id_phone form)) as [Hp | (phone & Hp & Hpne)].
    { left. destruct (identity_route_refused form w (or_intror (or_introl Hp)))
        as (resp & -> & Hst). simpl. rewrite Hst. by split. }
    destruct (decide (extracted_results vision secure_filename (id_files form)
                      = [])) as [Hres | Hres].
    { left. destruct (identity_route_refused form w (or_intror (or_intror Hres)))
        as (resp & -> & Hst). simpl. rewrite Hst. by split. }
    destruct (identity_route_cases vision secure_filename now_iso form w
                uid phone Hu Hne Hp Hpne Hres)
      as [(_ & Hst & Hw) | [(_ & resp & w1 & Hv & Hr)
                           | (_ & pv & msg & w1 & score & reason & bdy
                              & Hv & Hscore & Hr & _)]].
    + left. rewrite Hst, Hw. by split.
    + left. rewrite Hr. simpl.
      rewrite (verify_pan_users _ _ _ _ _ _ Hv). split; [| reflexivity].
      destruct (decide (default ""
                  (extract_pan (combine (extracted_results vision
                     secure_filename (id_files form)))) = bypass_pan))
        as [Hb | Hb].
      * rewrite Hb, verify_pan_bypass in Hv. discriminate.
      * destruct (verify_pan_lookup _ (default ""
                    (extract_name (combine (extracted_results vision
                       secure_filename (id_files form))))) phone w Hb)
          as [(r' & Hv' & Hst & _) | (msg & g & Hv' & _)];
          rewrite Hv' in Hv; [| discriminate].
        injection Hv as <- _. rewrite Hst. discriminate.
    + right. rewrite Hr. simpl.
      exists uid, score, reason, w1. split; [reflexivity |].
      split; [| split; [exact (verify_pan_users _ _ _ _ _ _ Hv) | reflexivity]].
      rewrite Hscore. apply identity_score_range.
  - exact score_capture_bound.
  - exact parse_score_range.
  - vm_compute. reflexivity.
Qed.

End StoredScoreFacts.

Lemma scoring_routes_store_scores_in_range_witness :
  exists m,
    Re.search Re.score_re "Score: 999" = Some m /\
    0 <= Py.int_of_digits (Re.group1 m) <= 999.
Proof.
  eexists. split; [vm_compute; reflexivity |].
  destruct (scoring_routes_store_scores_in_range
              (fun _ _ => None) (fun _ => None) (fun n => n) "")
    as (_ & _ & Hcapture & _).
  apply (Hcapture "Score: 999"). vm_compute. reflexivity.
Defined.

Section ProfileExamples.
Import Py Ledger App.

(** C10 as stated fails: the profile update merges the fields of the
    request into the user's document as they are, so it stores 999 as the
    financial score of the trust-score record. *)
Lemma profile_update_stores_any_score :
  ~ (forall uid data w d v,
       users (snd (run (user_profile_post uid data) w)) !! uid = Some d ->
       d !! "trust_score.financial_score" = Some v ->
       exists n, v = VInt n /\ 0 <= n <= 100).
Proof.
  intros H.
  destruct (H "u1" [("trust_score", VMap [("financial_score", VInt 999)])]
              empty_world
              {[ "trust_score.financial_score" := VInt 999 ]} (VInt 999))
    as (n & [= <-] & Hn); [reflexivity | reflexivity | lia].
Qed.

End ProfileExamples.

(* ===================================================================== *)
(** * Properties of the one-time passwords *)
(* ===================================================================== *)

Section OtpFacts.
Import Py App Otp.

Lemma pretty_N_char_digit (x : N) : is_digit (pretty_N_char x) = true.
Proof. unfold pretty_N_char. by repeat case_match. Qed.

(** The decimal text of a six-digit number. *)
Lemma pretty_six_digits (draw : Z) :
  100000 <= draw <= 999999 ->
  exists d1 d2 d3 d4 d5 d6,
    pretty draw = text [d1; d2; d3; d4; d5; d6] /\
    Forall (fun c => is_digit c = true) [d1; d2; d3; d4; d5; d6].
Proof.
  intros Hrange. destruct draw as [| p | p]; [lia | | lia].
  unfold pretty, pretty_Z, pretty, pretty_positive, pretty, pretty_N.
  rewrite decide_False by discriminate.
  set (x := N.pos p). assert (Hx : (100000 <= x <= 999999)%N) by (subst x; lia).
  clearbody x. clear Hrange.
  assert (Hdiv : forall y lo hi : N,
             (lo * 10 <= y < hi * 10)%N -> (lo <= y `div` 10 < hi)%N).
  { intros y lo hi [Hlo Hhi]. split.
    - apply N.div_le_lower_bound; lia.
    - apply N.Div0.div_lt_upper_bound; lia. }
  set (x1 := (x `div` 10)%N). set (x2 := (x1 `div` 10)%N).
  set (x3 := (x2 `div` 10)%N). set (x4 := (x3 `div` 10)%N).
  set (x5 := (x4 `div` 10)%N).
  assert (H1 : (10000 <= x1 < 100000)%N) by (apply Hdiv; lia).
  assert (H2 : (1000 <= x2 < 10000)%N) by (apply Hdiv; lia).
  assert (H3 : (100 <= x3 < 1000)%N) by (apply Hdiv; lia).
  assert (H4 : (10 <= x4 < 100)%N) by (apply Hdiv; lia).
  assert (H5 : (1 <= x5 < 10)%N) by (apply Hdiv; lia).
  assert (H6 : (0 <= x5 `div` 10 < 1)%N) by (apply Hdiv; lia).
  subst x1 x2 x3 x4 x5.
  rewrite 6!pretty_N_go_step by lia.
  replace (x / 10 / 10 / 10 / 10 / 10 / 10)%N with 0%N by lia.
  rewrite pretty_N_go_0.
  do 6 eexists. split; [reflexivity |].
  repeat constructor; apply pretty_N_char_digit.
Qed.

Lemma pretty_draw_nonempty (draw : Z) :
  100000 <= draw <= 999999 -> value_truthy (VStr (pretty draw)) = true.
Proof.
  intros H. destruct (pretty_six_digits draw H) as (d1 & ? & ? & ? & ? & ? & -> & _).
  reflexivity.
Qed.

(** Sending a code for an address stores a text of six decimal digits
    under it, whether or not the mail could be sent. *)
Theorem send_otp_stores_six_digits
    (e : string) (draw : Z) (sent : bool) (store : otp_store) :
  e <> "" -> 100000 <= draw <= 999999 ->
  exists code,
    snd (send_otp (Some e) draw sent store) !! e = Some code /\
    length (chars code) = 6%nat /\
    Forall (fun c => is_digit c = true) (chars code) /\
    status (fst (send_otp (Some e) draw sent store))
    = if sent then 200 else 500.
Proof.
  intros He Hrange. unfold send_otp.
  rewrite (truthy_intro e He). simpl.
  destruct (pretty_six_digits draw Hrange)
    as (d1 & d2 & d3 & d4 & d5 & d6 & Hp & Hd).
  exists (pretty draw).
  split; [destruct sent; apply lookup_insert_eq |].
  rewrite Hp. unfold chars, text.
  rewrite list_ascii_of_string_of_list_ascii.
  split; [reflexivity |]. split; [exact Hd |]. by destruct sent.
Qed.

Lemma send_otp_stores_six_digits_witness :
  exists code,
    snd (send_otp (Some "a@b.c") 123456 false ∅) !! "a@b.c" = Some code /\
    length (chars code) = 6%nat /\
    Forall (fun c => is_digit c = true) (chars code) /\
    status (fst (send_otp (Some "a@b.c") 123456 false ∅)) = 500.
Proof.
  apply (send_otp_stores_six_digits "a@b.c" 123456 false ∅);
    [discriminate | lia].
Defined.

(** A verification is accepted exactly when the address is given and the
    submitted value is a string equal to the code stored for it; every
    other request is answered 400 and leaves the store as it was. *)
Theorem verify_otp_accepts_only_stored_code
    (email : option string) (otp : option value) (store : otp_store) :
  let r := verify_otp email otp store in
  (status (fst r) = 200 <->
   exists e s,
     email = Some e /\ e <> "" /\ otp = Some (VStr s) /\ s <> "" /\
     store !! e = Some s) /\
  (status (fst r) <> 200 -> status (fst r) = 400 /\ snd r = store).
Proof.
  intros r. subst r. unfold verify_otp.
  destruct (truthy email) eqn:He; simpl.
  2: { split; [split; [discriminate |] | by intros _].
       intros (e & s & -> & Hne & _). by rewrite (truthy_intro e Hne) in He. }
  apply truthy_Some in He as (e & -> & Hne). simpl.
  destruct (value_truthy (default VNull otp)) eqn:Ho; simpl.
  2: { split; [split; [discriminate |] | by intros _].
       intros (e' & s & _ & _ & -> & Hs & _). simpl in Ho.
       destruct (String.eqb_spec s ""); [contradiction | discriminate]. }
  destruct (code_equals (store !! e) (default VNull otp)) eqn:Hc; simpl.
  - split; [| by intros []]. split; [intros _ | reflexivity].
    unfold code_equals in Hc.
    destruct (store !! e) as [c |] eqn:Hst; [| discriminate].
    destruct otp as [[| | | | s | | | |] |]; try discriminate. simpl in *.
    apply String.eqb_eq in Hc as ->.
    exists e, s. repeat split; try reflexivity; try assumption.
    intros ->. discriminate.
  - split; [split; [discriminate |] | by intros _].
    intros (e' & s & [= <-] & _ & -> & _ & Hst). simpl in Hc.
    rewrite Hst in Hc. simpl in Hc. rewrite String.eqb_refl in Hc. discriminate.
Qed.

(** A code is good for one verification: once accepted it is removed, so
    the same request is refused the second time, and the codes of other
    addresses are untouched. *)
Theorem verify_otp_single_use
    (email : option string) (otp : option value) (store : otp_store) :
  status (fst (verify_otp email otp store)) = 200 ->
  let store1 := snd (verify_otp email otp store) in
  status (fst (verify_otp email otp store1)) = 400 /\
  snd (verify_otp email otp store1) = store1 /\
  store1 = delete (default "" email) store.
Proof.
  intros Hok store1.
  assert (Hs1 : store1 = delete (default "" email) store).
  { subst store1. unfold verify_otp in *.
    destruct (negb (truthy email) || negb (value_truthy (default VNull otp)));
      [discriminate |].
    destruct (code_equals _ _); [reflexivity | discriminate]. }
  destruct (verify_otp_accepts_only_stored_code email otp store1)
    as [Hiff Hfail].
  assert (Hno : status (fst (verify_otp email otp store1)) <> 200).
  { intros H2. apply Hiff in H2 as (e & s & -> & _ & _ & _ & Hst).
    rewrite Hs1 in Hst. simpl in Hst. by rewrite lookup_delete_eq in Hst. }
  destruct (Hfail Hno) as [H400 Hsame]. by repeat split.
Qed.

Lemma verify_otp_single_use_witness :
  let store := snd (send_otp (Some "a@b.c") 123456 true ∅) in
  let store1 := snd (verify_otp (Some "a@b.c") (Some (VStr "123456")) store) in
  status (fst (verify_otp (Some "a@b.c") (Some (VStr "123456")) store1)) = 400 /\
  snd (verify_otp (Some "a@b.c") (Some (VStr "123456")) store1) = store1 /\
  store1 = delete "a@b.c" store.
Proof.
  intros store store1.
  apply (verify_otp_single_use (Some "a@b.c") (Some (VStr "123456")) store).
  vm_compute. reflexivity.
Defined.

(** Send then verify: the code drawn for an address verifies once sent,
    also when the mail itself failed (the answer to the send was 500), and
    after a newer send only the newer code verifies. *)
Theorem otp_send_then_verify
    (e : string) (draw newer : Z) (sent sent' : bool) (store : otp_store) :
  e <> "" -> 100000 <= draw <= 999999 -> 100000 <= newer <= 999999 ->
  status (fst (verify_otp (Some e) (Some (VStr (pretty draw)))
                 (snd (send_otp (Some e) draw sent store)))) = 200 /\
  (draw <> newer ->
   status (fst (verify_otp (Some e) (Some (VStr (pretty draw)))
                  (snd (send_otp (Some e) newer sent'
                          (snd (send_otp (Some e) draw sent store))))))
   = 400).
Proof.
  intros He Hd Hn.
  assert (Hstored : forall d b st,
             snd (send_otp (Some e) d b st) = <[e := pretty d]> st).
  { intros d b st. unfold send_otp. rewrite (truthy_intro e He). simpl.
    by destruct b. }
  split.
  - apply verify_otp_accepts_only_stored_code.
    exists e, (pretty draw). rewrite Hstored, lookup_insert_eq.
    repeat split; try reflexivity; try assumption.
    intros Hempty. pose proof (pretty_draw_nonempty draw Hd) as Ht.
    simpl in Ht. rewrite Hempty in Ht. discriminate.
  - intros Hne.
    destruct (verify_otp_accepts_only_stored_code (Some e)
                (Some (VStr (pretty draw)))
                (snd (send_otp (Some e) newer sent'
                        (snd (send_otp (Some e) draw sent store)))))
      as [Hiff Hfail].
    apply Hfail. intros H2.
    apply Hiff in H2 as (e' & s & [= <-] & _ & [= <-] & _ & Hst).
    rewrite !Hstored, lookup_insert_eq in Hst.
    injection Hst as Heq. apply Hne. symmetry. by apply (inj pretty).
Qed.

Lemma otp_send_then_verify_witness :
  status (fst (verify_otp (Some "a@b.c") (Some (VStr (pretty 123456)))
                 (snd (send_otp (Some "a@b.c") 123456 false ∅)))) = 200 /\
  (123456 <> 654321 ->
   status (fst (verify_otp (Some "a@b.c") (Some (VStr (pretty 123456)))
                  (snd (send_otp (Some "a@b.c") 654321 true
                          (snd (send_otp (Some "a@b.c") 123456 false ∅))))))
   = 400).
Proof.
  apply (otp_send_then_verify "a@b.c" 123456 654321 false true ∅);
    [discriminate | lia | lia].
Defined.

End OtpFacts.

Lemma verify_otp_accepts_only_stored_code_witness :
  let r := Otp.verify_otp (Some "a@b.c") (Some (Py.VInt 123456))
             {[ "a@b.c" := "123456" ]} in
  App.status (fst r) = 400 /\ snd r = {[ "a@b.c" := "123456" ]}.
Proof.
  intros r.
  apply (verify_otp_accepts_only_stored_code (Some "a@b.c")
           (Some (Py.VInt 123456)) {[ "a@b.c" := "123456" ]}).
  vm_compute. discriminate.
Defined.

(* ===================================================================== *)
(** * What the extraction patterns return *)
(* ===================================================================== *)

Section ExtractionFacts.
Import Py Re App.

Lemma matches_rep_inv cls lo hi cap p prev m caps rest :
  matches (Rep cls lo hi cap :: p) prev m caps rest ->
  exists pre m' caps',
    m = pre ++ m' /\ Forall (fun c => cls c = true) pre /\
    count_ok lo hi (length pre) /\
    caps = (if cap then pre :: caps' else caps') /\
    matches p (last_char prev pre) m' caps' rest.
Proof.
  inversion 1; subst. eexists _, _, _. repeat split; eauto.
  all: match goal with H : count_ok _ _ _ |- _ => apply H end.
Qed.

Lemma matches_wordb_inv p prev m caps rest :
  matches (WordB :: p) prev m caps rest -> matches p prev m caps rest.
Proof. by inversion 1. Qed.

Lemma matches_nil_inv prev m caps rest :
  matches [] prev m caps rest -> m = [] /\ caps = [].
Proof. by inversion 1. Qed.

(** A run of single-character items consumes as many characters. *)
Lemma matches_ones (f : ascii -> ascii -> bool) (cs : list ascii) p :
  forall prev m caps rest,
    matches (map (fun c => one (f c)) cs ++ p) prev m caps rest ->
    exists l m',
      m = l ++ m' /\ length l = length cs /\
      matches p (last_char prev l) m' caps rest.
Proof.
  induction cs as [| c cs IH]; intros prev m caps rest Hm; simpl in Hm.
  - by exists [], m.
  - apply matches_one_inv in Hm as (x & m1 & -> & _ & Hm).
    apply IH in Hm as (l & m' & -> & Hlen & Hm).
    exists (x :: l), m'. split; [reflexivity |].
    split; [simpl; by rewrite Hlen | by rewrite last_char_cons].
Qed.

Lemma exact_length (n : nat) (l : list ascii) :
  count_ok n (Some n) (length l) -> length l = n.
Proof. intros [? ?]. lia. Qed.

Lemma chars_text (l : list ascii) : chars (text l) = l.
Proof. apply list_ascii_of_string_of_list_ascii. Qed.

Lemma upper_not_space (c : ascii) : is_upper c = true -> is_space c = false.
Proof.
  unfold is_upper, is_space, in_range. intros H.
  apply andb_true_iff in H as [H1 H2]. apply Nat.leb_le in H1, H2.
  apply orb_false_iff. split; apply andb_false_iff.
  - right. apply Nat.leb_gt. lia.
  - right. apply Nat.leb_gt. lia.
Qed.

Lemma upper_char_fixed (c : ascii) :
  is_upper c = true \/ is_digit c = true -> upper_char c = c.
Proof.
  unfold upper_char, is_lower, is_upper, is_digit, in_range. intros H.
  destruct ((97 <=? code c)%nat && (code c <=? 122)%nat) eqn:Hl;
    [| reflexivity].
  exfalso. apply andb_true_iff in Hl as [H3 H4]. apply Nat.leb_le in H3, H4.
  destruct H as [H | H]; apply andb_true_iff in H as [H1 H2];
    apply Nat.leb_le in H1, H2; lia.
Qed.

Lemma rev_reverse (l : list ascii) : rev l = reverse l.
Proof.
  induction l as [| c l IH]; [reflexivity |].
  simpl. by rewrite IH, reverse_cons.
Qed.

Lemma lstrip_suffix (l : list ascii) :
  exists pre, l = pre ++ lstrip l /\ Forall (fun c => is_space c = true) pre.
Proof.
  induction l as [| c l (pre & Hl & Hpre)]; simpl.
  - by exists [].
  - destruct (is_space c) eqn:Hc.
    + exists (c :: pre). split; [by rewrite Hl at 1 | by constructor].
    + by exists [].
Qed.

Lemma lstrip_head (l : list ascii) (c : ascii) :
  head (lstrip l) = Some c -> is_space c = false.
Proof.
  induction l as [| x l IH]; simpl; [discriminate |].
  destruct (is_space x) eqn:Hx; [exact IH |].
  simpl. by intros [= <-].
Qed.

Lemma lstrip_last (l : list ascii) (c : ascii) :
  last (lstrip l) = Some c -> last l = Some c.
Proof.
  destruct (lstrip_suffix l) as (pre & Hl & _). intros Hc.
  rewrite Hl. rewrite last_app, Hc. reflexivity.
Qed.

Lemma lstrip_Forall (P : ascii -> Prop) (l : list ascii) :
  Forall P l -> Forall P (lstrip l).
Proof.
  destruct (lstrip_suffix l) as (pre & Hl & _). intros H.
  rewrite Hl in H. by apply Forall_app in H as [_ H].
Qed.

(** [str.strip] keeps the characters between the first and the last one
    that is not white space. *)
Lemma strip_ends (l : list ascii) :
  (forall c, head (strip l) = Some c -> is_space c = false) /\
  (forall c, last (strip l) = Some c -> is_space c = false) /\
  (forall P : ascii -> Prop, Forall P l -> Forall P (strip l)).
Proof.
  unfold strip. rewrite !rev_reverse. split; [| split].
  - intros c. rewrite head_reverse. intros Hc.
    apply lstrip_last in Hc. rewrite last_reverse in Hc.
    by apply lstrip_head in Hc.
  - intros c. rewrite last_reverse. apply lstrip_head.
  - intros P H. apply Forall_reverse, lstrip_Forall, Forall_reverse.
    by apply lstrip_Forall.
Qed.

Lemma strip_fixed (l : list ascii) (a z : ascii) :
  head l = Some a -> last l = Some z ->
  is_space a = false -> is_space z = false -> strip l = l.
Proof.
  intros Ha Hz Hna Hnz.
  assert (Hl : forall (k : list ascii) x,
             head k = Some x -> is_space x = false -> lstrip k = k).
  { intros [| y k] x; [discriminate |]. simpl. intros [= ->] ->. reflexivity. }
  unfold strip. rewrite (Hl l a Ha Hna), !rev_reverse.
  rewrite (Hl (reverse l) z); [apply reverse_involutive | | exact Hnz].
  by rewrite head_reverse.
Qed.

(** What [search] returns is an occurrence of the pattern. *)
Lemma search_Some (p : pattern) (t : string) (m : mtch) :
  search p t = Some m ->
  exists prev rest, matches p prev (whole m) (groups m) rest.
Proof.
  unfold search. intros H.
  apply search_from_Some in H as (pre & rest & _ & Hm). eauto.
Qed.

(** An extracted phone number is ten decimal digits. *)
Theorem extract_phone_is_ten_digits (t p : string) :
  extract_phone t = Some p ->
  length (chars p) = 10%nat /\ Forall (fun c => is_digit c = true) (chars p).
Proof.
  unfold extract_phone.
  destruct (search phone_re t) as [m |] eqn:Hs; [| discriminate].
  simpl. intros [= <-]. rewrite chars_text.
  apply search_Some in Hs as (prev & rest & Hm).
  unfold phone_re, lit in Hm. unfold group1.
  apply matches_ones in Hm as (l & m1 & _ & _ & Hm).
  apply matches_rep_inv in Hm as (? & ? & ? & _ & _ & _ & -> & Hm).
  apply matches_rep_inv in Hm as (? & ? & ? & _ & _ & _ & -> & Hm).
  apply matches_rep_inv in Hm as (? & ? & ? & _ & _ & _ & -> & Hm).
  apply matches_rep_inv in Hm as (ds & ? & ? & _ & Hds & Hlen & -> & Hm).
  simpl. split; [by apply exact_length | exact Hds].
Qed.

Lemma extract_phone_is_ten_digits_witness :
  length (chars "9876543210") = 10%nat /\
  Forall (fun c => is_digit c = true) (chars "9876543210").
Proof.
  apply (extract_phone_is_ten_digits "Phone: 9876543210 (home)").
  vm_compute. reflexivity.
Defined.

(** An extracted PAN is five capitals, four digits and one capital; the
    [strip] and [upper] applied to the match never change it, and the
    result is never empty. *)
Theorem extract_pan_format (t p : string) :
  extract_pan t = Some p ->
  exists l n c,
    chars p = l ++ n ++ [c] /\
    length l = 5%nat /\ Forall (fun x => is_upper x = true) l /\
    length n = 4%nat /\ Forall (fun x => is_digit x = true) n /\
    is_upper c = true /\ truthy (Some p) = true.
Proof.
  unfold extract_pan.
  destruct (search pan_re _) as [m |] eqn:Hs; [| discriminate].
  simpl. intros [= <-].
  apply search_Some in Hs as (prev & rest & Hm).
  unfold pan_re in Hm. unfold group0.
  apply matches_rep_inv in Hm as (l & ? & ? & -> & Hl & Hll & _ & Hm).
  apply matches_rep_inv in Hm as (n & ? & ? & -> & Hn & Hnl & _ & Hm).
  apply matches_rep_inv in Hm as (c1 & ? & ? & -> & Hc & Hcl & _ & Hm).
  apply matches_nil_inv in Hm as [-> _].
  apply exact_length in Hll, Hnl, Hcl.
  destruct c1 as [| c [| ? ?]]; try discriminate.
  apply Forall_cons in Hc as [Hc _].
  destruct l as [| l1 l]; [discriminate |].
  pose proof Hl as Hl1. apply Forall_cons in Hl1 as [Hl1 _].
  assert (Hstrip : strip ((l1 :: l) ++ n ++ [c] ++ []) = (l1 :: l) ++ n ++ [c]).
  { rewrite app_nil_r.
    apply (strip_fixed _ l1 c); [reflexivity | | by apply upper_not_space
                                 | by apply upper_not_space].
    rewrite !app_assoc. apply last_snoc. }
  unfold strip_str, upper. rewrite !chars_text, Hstrip.
  assert (Hup : map upper_char ((l1 :: l) ++ n ++ [c]) = (l1 :: l) ++ n ++ [c]).
  { rewrite <- (map_id ((l1 :: l) ++ n ++ [c])) at 2.
    apply map_ext_Forall. rewrite !Forall_app. repeat split.
    - eapply Forall_impl; [exact Hl |]. intros x Hx.
      apply upper_char_fixed. by left.
    - eapply Forall_impl; [exact Hn |]. intros x Hx.
      apply upper_char_fixed. by right.
    - constructor; [| constructor]. apply upper_char_fixed. by left. }
  rewrite Hup. exists (l1 :: l), n, c.
  repeat split; assumption || reflexivity.
Qed.

Lemma extract_pan_format_witness :
  exists l n c,
    chars "ABCDE1234F" = l ++ n ++ [c] /\
    length l = 5%nat /\ Forall (fun x => is_upper x = true) l /\
    length n = 4%nat /\ Forall (fun x => is_digit x = true) n /\
    is_upper c = true /\ truthy (Some "ABCDE1234F") = true.
Proof.
  apply (extract_pan_format "PAN: ABCDE 1234 F").
  vm_compute. reflexivity.
Defined.

Lemma filter_nonspace_digits (g : list ascii) :
  Forall (fun c => is_digit c = true) g -> remove_spaces g = g.
Proof.
  unfold remove_spaces. induction 1 as [| c g Hc _ IH]; [reflexivity |].
  rewrite filter_cons, IH. rewrite decide_True; [reflexivity |].
  unfold is_digit, in_range in Hc. apply andb_true_iff in Hc as [H1 _].
  apply Nat.leb_le in H1. lia.
Qed.

Lemma filter_nonspace_gap (w : list ascii) :
  Forall (fun c => is_space c = true) w -> (length w <= 1)%nat ->
  (length (remove_spaces w) <= 1)%nat /\
  Forall (fun c => is_space c = true /\ c <> " "%char) (remove_spaces w).
Proof.
  intros Hw Hlen. destruct w as [| c [| ? ?]]; simpl in Hlen; try lia.
  - split; [simpl; lia | constructor].
  - apply Forall_cons in Hw as [Hc _]. unfold remove_spaces.
    rewrite filter_cons, filter_nil.
    destruct (decide (code c ≠ 32%nat)) as [Hne | _];
      [| split; [simpl; lia | constructor]].
    split; [simpl; lia |]. constructor; [| constructor].
    split; [exact Hc |]. intros ->. by apply Hne.
Qed.

(** An extracted Aadhaar number holds three groups of four digits; a
    separator that is white space other than a blank (a tab, a line
    break) stays in the result, since only blanks are removed. *)
Theorem extract_aadhaar_format (t a : string) :
  extract_aadhaar t = Some a ->
  exists g1 s1 g2 s2 g3,
    chars a = g1 ++ s1 ++ g2 ++ s2 ++ g3 /\
    Forall (fun g => length g = 4%nat /\ Forall (fun c => is_digit c = true) g)
           [g1; g2; g3] /\
    Forall (fun s => (length s <= 1)%nat /\
                     Forall (fun c => is_space c = true /\ c <> " "%char) s)
           [s1; s2].
Proof.
  unfold extract_aadhaar.
  destruct (search aadhaar_re t) as [m |] eqn:Hs; [| discriminate].
  simpl. intros [= <-]. rewrite chars_text.
  apply search_Some in Hs as (prev & rest & Hm).
  unfold aadhaar_re in Hm.
  apply matches_wordb_inv in Hm.
  apply matches_rep_inv in Hm as (g1 & ? & ? & -> & Hg1 & Hl1 & _ & Hm).
  apply matches_rep_inv in Hm as (w1 & ? & ? & -> & Hw1 & [_ Hk1] & _ & Hm).
  apply matches_rep_inv in Hm as (g2 & ? & ? & -> & Hg2 & Hl2 & _ & Hm).
  apply matches_rep_inv in Hm as (w2 & ? & ? & -> & Hw2 & [_ Hk2] & _ & Hm).
  apply matches_rep_inv in Hm as (g3 & ? & ? & -> & Hg3 & Hl3 & _ & Hm).
  apply matches_wordb_inv, matches_nil_inv in Hm as [-> _].
  apply exact_length in Hl1, Hl2, Hl3.
  destruct (filter_nonspace_gap w1 Hw1 Hk1) as [Hs1 Hn1].
  destruct (filter_nonspace_gap w2 Hw2 Hk2) as [Hs2 Hn2].
  exists g1, (remove_spaces w1), g2, (remove_spaces w2), g3.
  split; [| split].
  - rewrite app_nil_r. unfold remove_spaces. rewrite !filter_app.
    fold (remove_spaces g1) (remove_spaces g2) (remove_spaces g3).
    by rewrite (filter_nonspace_digits g1 Hg1), (filter_nonspace_digits g2 Hg2),
      (filter_nonspace_digits g3 Hg3).
  - repeat apply Forall_cons_2; try apply Forall_nil_2; by split.
  - repeat apply Forall_cons_2; try apply Forall_nil_2; by split.
Qed.

Lemma extract_aadhaar_format_witness :
  exists g1 s1 g2 s2 g3,
    chars ("1234" +:+ newline +:+ "56789012") = g1 ++ s1 ++ g2 ++ s2 ++ g3 /\
    Forall (fun g => length g = 4%nat /\ Forall (fun c => is_digit c = true) g)
           [g1; g2; g3] /\
    Forall (fun s => (length s <= 1)%nat /\
                     Forall (fun c => is_space c = true /\ c <> " "%char) s)
           [s1; s2].
Proof.
  apply (extract_aadhaar_format
           ("Aadhaar: 1234" +:+ newline +:+ "5678 9012")).
  vm_compute. reflexivity.
Defined.

(** An extracted name holds only letters and white space and neither
    starts nor ends with white space; it may be empty. *)
Theorem extract_name_is_stripped (t n : string) :
  extract_name t = Some n ->
  Forall (fun c => alpha_or_space c = true) (chars n) /\
  (forall c, head (chars n) = Some c -> is_alpha c = true) /\
  (forall c, last (chars n) = Some c -> is_alpha c = true).
Proof.
  unfold extract_name.
  destruct (search name_re t) as [m |] eqn:Hs; [| discriminate].
  simpl. intros [= <-]. rewrite chars_text.
  apply search_Some in Hs as (prev & rest & Hm).
  unfold name_re, lit_ci in Hm. unfold group1.
  apply matches_ones in Hm as (l & m1 & _ & _ & Hm).
  apply matches_rep_inv in Hm as (? & ? & ? & _ & _ & _ & -> & Hm).
  apply matches_rep_inv in Hm as (? & ? & ? & _ & _ & _ & -> & Hm).
  apply matches_rep_inv in Hm as (? & ? & ? & _ & _ & _ & -> & Hm).
  apply matches_rep_inv in Hm as (grp & ? & ? & _ & Hgrp & _ & -> & Hm).
  simpl.
  destruct (strip_ends grp) as (Hhead & Hlast & Hall).
  pose proof (Hall _ Hgrp) as Hstr.
  assert (Hletter : forall c,
             c ∈ strip grp -> is_space c = false -> is_alpha c = true).
  { intros c Hin Hns. rewrite Forall_forall in Hstr.
    specialize (Hstr c Hin). unfold alpha_or_space in Hstr.
    rewrite Hns, orb_false_r in Hstr. exact Hstr. }
  split; [exact Hstr |]. split; intros c Hc.
  - apply Hletter; [by apply head_Some_elem_of | by apply Hhead].
  - apply Hletter; [by apply last_Some_elem_of | by apply Hlast].
Qed.

Lemma extract_name_is_stripped_witness :
  Forall (fun c => alpha_or_space c = true) (chars "Asha Rao") /\
  (forall c, head (chars "Asha Rao") = Some c -> is_alpha c = true) /\
  (forall c, last (chars "Asha Rao") = Some c -> is_alpha c = true).
Proof.
  apply (extract_name_is_stripped "Name :  Asha Rao  1990").
  vm_compute. reflexivity.
Defined.

Lemma first_down_top {A} (f : nat -> option A) (lo n : nat) (a : A) :
  (lo <= n)%nat -> f n = Some a -> first_down f lo n = Some a.
Proof.
  intros Hlo Hf. destruct n as [| n]; simpl.
  - destruct (Nat.ltb_spec 0 lo); [lia |]. by rewrite Hf.
  - destruct (Nat.ltb_spec (S n) lo); [lia |]. by rewrite Hf.
Qed.

(** The greedy count is tried first: when the rest of the pattern matches
    after it, that is the match. *)
Lemma match_here_greedy cls lo hi cap p prev s m :
  let k := cap_at hi (Re.run cls s) in
  (lo <= k)%nat ->
  match_here p (last_char prev (take k s)) (drop k s) = Some m ->
  match_here (Rep cls lo hi cap :: p) prev s
  = Some (Match (take k s ++ whole m)
                (if cap then take k s :: groups m else groups m)).
Proof.
  intros k Hlo Hm. simpl. fold k.
  apply first_down_top; [exact Hlo |]. by rewrite Hm.
Qed.

Lemma match_here_one cls p prev c s m :
  cls c = true ->
  match_here p (Some c) s = Some m ->
  match_here (one cls :: p) prev (c :: s)
  = Some (Match (c :: whole m) (groups m)).
Proof.
  intros Hc Hm. unfold one.
  rewrite (match_here_greedy cls 1 (Some 1%nat) false p prev (c :: s) m);
    simpl; rewrite Hc; simpl; [reflexivity | lia | exact Hm].
Qed.

Lemma run_app (cls : ascii -> bool) (pre s : list ascii) :
  Forall (fun c => cls c = true) pre ->
  Re.run cls (pre ++ s) = (length pre + Re.run cls s)%nat.
Proof.
  induction 1 as [| c pre Hc _ IH]; simpl; [reflexivity |].
  by rewrite Hc, IH.
Qed.

Lemma alpha_not_space (c : ascii) : is_alpha c = true -> is_space c = false.
Proof.
  unfold is_alpha, is_upper, is_lower, is_space, in_range. intros H.
  apply orb_false_iff. split; apply andb_false_iff; right; apply Nat.leb_gt;
    apply orb_true_iff in H as [H | H]; apply andb_true_iff in H as [H1 H2];
    apply Nat.leb_le in H1, H2; lia.
Qed.

(** The name group runs over line breaks. When the name line opens the
    text and the next line starts with a label made of letters, as in
    [Name: ...] followed by [PAN: ...], the extracted name is the name, the
    line break and that label. *)
Theorem extract_name_runs_into_next_label
    (c0 : ascii) (name label rest : list ascii) (l0 stop : ascii) :
  is_alpha c0 = true ->
  Forall (fun c => alpha_or_space c = true) name ->
  is_alpha l0 = true ->
  Forall (fun c => is_alpha c = true) label ->
  alpha_or_space stop = false ->
  extract_name
    (text (chars "Name: " ++ (c0 :: name) ++ chars newline ++ (label ++ [l0])
           ++ stop :: rest))
  = Some (text ((c0 :: name) ++ chars newline ++ label ++ [l0])).
Proof.
  intros Hc0 Hname Hl0 Hlabel Hstop.
  remember ((c0 :: name) ++ chars newline ++ label ++ [l0]) as grp eqn:Hg.
  assert (Hgrp : Forall (fun c => alpha_or_space c = true) grp).
  { subst grp. rewrite !Forall_app. repeat split.
    - constructor; [| exact Hname]. unfold alpha_or_space. by rewrite Hc0.
    - repeat constructor.
    - eapply Forall_impl; [exact Hlabel |]. intros c Hc.
      unfold alpha_or_space. by rewrite Hc.
    - constructor; [| constructor]. unfold alpha_or_space. by rewrite Hl0. }
  assert (Hhead : exists tl, grp = c0 :: tl) by (subst grp; simpl; eauto).
  assert (Hlast : last grp = Some l0).
  { subst grp. rewrite !app_assoc. apply last_snoc. }
  assert (Hrun : Re.run alpha_or_space (grp ++ stop :: rest) = length grp).
  { rewrite run_app by exact Hgrp. simpl. rewrite Hstop. lia. }
  (* the captured group *)
  assert (E4 : forall prev,
             match_here [Rep alpha_or_space 1 None true] prev
               (grp ++ stop :: rest)
             = Some (Match grp [grp])).
  { intros prev.
    pose proof (match_here_greedy alpha_or_space 1 None true [] prev
                  (grp ++ stop :: rest) (Match [] [])) as Hgreedy.
    cbv zeta in Hgreedy. unfold cap_at in Hgreedy. rewrite Hrun in Hgreedy.
    rewrite take_app_length, app_nil_r in Hgreedy.
    apply Hgreedy; [| reflexivity].
    destruct Hhead as [tl ->]. simpl. lia. }
  (* the blank after the colon *)
  assert (E3 : forall prev,
             match_here [many is_space; Rep alpha_or_space 1 None true] prev
               (" "%char :: grp ++ stop :: rest)
             = Some (Match (" "%char :: grp) [grp])).
  { intros prev.
    assert (Hr : Re.run is_space (" "%char :: grp ++ stop :: rest) = 1%nat).
    { destruct Hhead as [tl ->]. simpl. by rewrite (alpha_not_space c0 Hc0). }
    pose proof (match_here_greedy is_space 0 None false
                  [Rep alpha_or_space 1 None true] prev
                  (" "%char :: grp ++ stop :: rest) (Match grp [grp]))
      as Hgreedy.
    cbv zeta in Hgreedy. unfold cap_at in Hgreedy. rewrite Hr in Hgreedy.
    apply Hgreedy; [lia | apply E4]. }
  (* the colon *)
  assert (E2 : forall prev,
             match_here [opt colon_or_dash; many is_space;
                         Rep alpha_or_space 1 None true] prev
               (":"%char :: " "%char :: grp ++ stop :: rest)
             = Some (Match (":"%char :: " "%char :: grp) [grp])).
  { intros prev.
    apply (match_here_greedy colon_or_dash 0 (Some 1%nat) false
             [many is_space; Rep alpha_or_space 1 None true] prev
             (":"%char :: " "%char :: grp ++ stop :: rest)
             (Match (" "%char :: grp) [grp])); [simpl; lia | apply E3]. }
  (* no white space before the colon *)
  assert (E1 : forall prev,
             match_here [many is_space; opt colon_or_dash; many is_space;
                         Rep alpha_or_space 1 None true] prev
               (":"%char :: " "%char :: grp ++ stop :: rest)
             = Some (Match (":"%char :: " "%char :: grp) [grp])).
  { intros prev.
    apply (match_here_greedy is_space 0 None false
             [opt colon_or_dash; many is_space;
              Rep alpha_or_space 1 None true] prev
             (":"%char :: " "%char :: grp ++ stop :: rest)
             (Match (":"%char :: " "%char :: grp) [grp]));
      [simpl; lia | apply E2]. }
  assert (E0 : match_here name_re None
                 ("N"%char :: "a"%char :: "m"%char :: "e"%char :: ":"%char
                  :: " "%char :: grp ++ stop :: rest)
               = Some (Match ("N"%char :: "a"%char :: "m"%char :: "e"%char
                              :: ":"%char :: " "%char :: grp) [grp])).
  { change name_re
      with (one (is_char_ci "N") :: one (is_char_ci "a")
            :: one (is_char_ci "m") :: one (is_char_ci "e")
            :: [many is_space; opt colon_or_dash; many is_space;
                Rep alpha_or_space 1 None true]).
    apply (match_here_one (is_char_ci "N") _ None "N" _
             (Match ("a"%char :: "m"%char :: "e"%char :: ":"%char :: " "%char
                     :: grp) [grp])); [reflexivity |].
    apply (match_here_one (is_char_ci "a") _ (Some "N"%char) "a" _
             (Match ("m"%char :: "e"%char :: ":"%char :: " "%char :: grp)
                    [grp])); [reflexivity |].
    apply (match_here_one (is_char_ci "m") _ (Some "a"%char) "m" _
             (Match ("e"%char :: ":"%char :: " "%char :: grp) [grp]));
      [reflexivity |].
    apply (match_here_one (is_char_ci "e") _ (Some "m"%char) "e" _
             (Match (":"%char :: " "%char :: grp) [grp])); [reflexivity |].
    apply E1. }
  assert (Htext :
            chars "Name: " ++ (c0 :: name) ++ chars newline ++ (label ++ [l0])
            ++ stop :: rest
            = "N"%char :: "a"%char :: "m"%char :: "e"%char :: ":"%char
              :: " "%char :: grp ++ stop :: rest).
  { rewrite Hg. simpl. do 7 f_equal.
    rewrite <- !app_assoc. simpl. by rewrite <- !app_assoc. }
  rewrite Htext.
  unfold extract_name, search. rewrite chars_text.
  unfold search_from. rewrite E0. simpl. unfold group1. simpl.
  destruct Hhead as [tl Htl].
  rewrite (strip_fixed grp c0 l0);
    [reflexivity | by rewrite Htl | exact Hlast
    | by apply alpha_not_space | by apply alpha_not_space].
Qed.

Lemma extract_name_runs_into_next_label_witness :
  extract_name
    (text (chars "Name: " ++ chars "Asha Rao" ++ chars newline
           ++ (chars "PA" ++ ["N"%char]) ++ ":"%char :: chars " ABCDE1234F"))
  = Some (text (chars "Asha Rao" ++ chars newline ++ chars "PA" ++ ["N"%char])).
Proof.
  apply (extract_name_runs_into_next_label "A" (chars "sha Rao") (chars "PA")
           (chars " ABCDE1234F") "N" ":");
    try reflexivity; vm_compute; repeat constructor.
Defined.

End ExtractionFacts.

(* ===================================================================== *)
(** * Merge-writes *)
(* ===================================================================== *)

Section MergeFacts.
Import Py Ledger App Queries.

Lemma fold_insert_other (l : list (string * value)) :
  forall (d : doc) k,
    k ∉ l.*1 ->
    fold_left (fun acc kv => <[fst kv := snd kv]> acc) l d !! k = d !! k.
Proof.
  induction l as [| [k0 v0] l IH]; intros d k Hk; simpl; [reflexivity |].
  simpl in Hk. apply not_elem_of_cons in Hk as [Hne Hk].
  rewrite IH by exact Hk. by rewrite lookup_insert_ne.
Qed.

Lemma fold_insert_written (l : list (string * value)) :
  forall (d : doc) k v,
    NoDup l.*1 -> (k, v) ∈ l ->
    fold_left (fun acc kv => <[fst kv := snd kv]> acc) l d !! k = Some v.
Proof.
  induction l as [| [k0 v0] l IH]; intros d k v Hnd Hin; simpl.
  - by apply elem_of_nil in Hin.
  - simpl in Hnd. apply NoDup_cons in Hnd as [Hk0 Hnd].
    apply elem_of_cons in Hin as [[= -> ->] | Hin].
    + rewrite fold_insert_other by exact Hk0. apply lookup_insert_eq.
    + by apply IH.
Qed.

Lemma merge_other (fields : list (string * value)) (d : doc) k :
  k ∉ written_paths fields -> merge fields d !! k = d !! k.
Proof. apply fold_insert_other. Qed.

Lemma merge_written (fields : list (string * value)) (d : doc) k v :
  NoDup (written_paths fields) -> (k, v) ∈ leaves fields ->
  merge fields d !! k = Some v.
Proof. apply fold_insert_written. Qed.

Lemma user_field_log (e : event) (w : world) uid k :
  user_field (log e w) uid k = user_field w uid k.
Proof. reflexivity. Qed.

Lemma user_field_set_user_other uid fields (w : world) uid' k :
  uid' <> uid \/ k ∉ written_paths fields ->
  user_field (set_user uid fields w) uid' k = user_field w uid' k.
Proof.
  intros Hother. unfold user_field, set_user. simpl.
  destruct (decide (uid' = uid)) as [-> | Hne].
  - destruct Hother as [? | Hk]; [done |].
    rewrite lookup_insert_eq. simpl. rewrite merge_other by exact Hk.
    by destruct (users w !! uid).
  - by rewrite lookup_insert_ne.
Qed.

Lemma user_field_set_user_written uid fields (w : world) k v :
  NoDup (written_paths fields) -> (k, v) ∈ leaves fields ->
  user_field (set_user uid fields w) uid k = Some v.
Proof.
  intros Hnd Hin. unfold user_field, set_user. simpl.
  rewrite lookup_insert_eq. simpl. by apply merge_written.
Qed.

End MergeFacts.

(* ===================================================================== *)
(** * What the scoring routes write *)
(* ===================================================================== *)

Section ScoringWriteFacts.
Import Py Re Ledger App Queries.

Variable vision : string -> list ascii -> option string.
Variable scorer : string -> option string.
Variable secure_filename : string -> string.
Variable now_iso : string.

Lemma financial_fields_paths (score : Z) (explanation : string) :
  leaves (financial_fields now_iso score explanation)
  = [("trust_score.financial_score", VInt score);
     ("trust_score.financial_verified_at", VServerTimestamp);
     ("trust_score.financial_history",
      VList [history_entry now_iso score explanation])].
Proof. reflexivity. Qed.

Lemma identity_fields_paths (score : Z) (reason : string) :
  leaves (identity_fields now_iso score reason)
  = [("trust_score.identity_score", VInt score);
     ("trust_score.identity_verified_at", VServerTimestamp);
     ("trust_score.identity_history",
      VList [history_entry now_iso score reason])].
Proof. reflexivity. Qed.

Lemma NoDup_three (a b c : string) :
  a <> b -> a <> c -> b <> c -> NoDup [a; b; c].
Proof.
  intros Hab Hac Hbc.
  apply NoDup_cons. split.
  { rewrite !not_elem_of_cons. repeat split; auto. apply not_elem_of_nil. }
  apply NoDup_cons. split.
  { rewrite !not_elem_of_cons. repeat split; auto. apply not_elem_of_nil. }
  apply NoDup_singleton.
Qed.

Lemma apart_not_written (paths : list string) (k : string) :
  (forall p, p ∈ paths -> apart p k) -> k ∉ paths.
Proof. intros Hapart Hin. by destruct (Hapart k Hin) as [Hne _]. Qed.

(** An accepted financial request writes three fields of the user's
    document: the score it reports, the ledger's time stamp, and a history
    of one entry, that of this request, whatever the history held before.
    Every path apart from these three, and every other user, is as it
    was. *)
Theorem financial_route_stores_what_it_reports
    (form : financial_form) (w : world) :
  let r :=
    run (verify_financial_documents vision scorer secure_filename now_iso form)
        w in
  status (fst r) = 200 ->
  exists uid score explanation,
    fin_uid form = Some uid /\
    dict_get "trust_score" (body (fst r)) = Some (VInt score) /\
    dict_get "explanation" (body (fst r)) = Some (VStr explanation) /\
    user_field (snd r) uid "trust_score.financial_score" = Some (VInt score) /\
    user_field (snd r) uid "trust_score.financial_verified_at"
    = Some VServerTimestamp /\
    user_field (snd r) uid "trust_score.financial_history"
    = Some (VList [history_entry now_iso score explanation]) /\
    (forall uid' k,
       uid' <> uid \/ (forall p, p ∈ financial_paths -> apart p k) ->
       user_field (snd r) uid' k = user_field w uid' k).
Proof.
  intros r Hok. subst r.
  destruct (truthy_cases (fin_uid form)) as [Hu | (uid & Hu & Hne)].
  { destruct (financial_route_refused vision scorer secure_filename now_iso
                form w (or_introl Hu)) as (resp & Hr & Hst).
    rewrite Hr in Hok. simpl in Hok. congruence. }
  destruct (decide (extracted_results vision secure_filename (fin_files form)
                    = [])) as [Hres | Hres].
  { destruct (financial_route_refused vision scorer secure_filename now_iso
                form w (or_intror Hres)) as (resp & Hr & Hst).
    rewrite Hr in Hok. simpl in Hok. congruence. }
  rewrite (financial_route_scored vision scorer secure_filename now_iso
             form w uid Hu Hne Hres). simpl.
  eexists uid, _, _. split; [exact Hu |].
  split; [reflexivity |]. split; [reflexivity |].
  assert (Hnd : forall s e,
             NoDup (written_paths (financial_fields now_iso s e))).
  { intros s e. unfold written_paths. rewrite financial_fields_paths.
    by apply NoDup_three. }
  split; [| split; [| split]].
  - apply user_field_set_user_written; [apply Hnd |].
    rewrite financial_fields_paths. apply list_elem_of_here.
  - apply user_field_set_user_written; [apply Hnd |].
    rewrite financial_fields_paths.
    apply list_elem_of_further, list_elem_of_here.
  - apply user_field_set_user_written; [apply Hnd |].
    rewrite financial_fields_paths.
    apply list_elem_of_further, list_elem_of_further, list_elem_of_here.
  - intros uid' k Hother. apply user_field_set_user_other.
    unfold written_paths. rewrite financial_fields_paths.
    destruct Hother as [? | Hapart]; [by left | right].
    by apply (apart_not_written financial_paths).
Qed.

(** The identity scores an accepted request can carry. In every accepted
    request the PAN is verified and a name is present, so the score is 50
    plus 30 for an Aadhaar number plus 20 for a matching phone; the branch
    that awards nothing for a missing name is never taken. The request
    writes three fields of the user's document: that score, the ledger's
    time stamp, and a history of one entry; every path apart from these
    three, and every other user, is as it was. *)
Theorem identity_route_stores_what_it_reports
    (form : identity_form) (w : world) :
  let r :=
    run (verify_identity_documents vision secure_filename now_iso form) w in
  status (fst r) = 200 ->
  exists uid score reason,
    id_uid form = Some uid /\
    score ∈ [50; 70; 80; 100] /\
    dict_get "trust_score" (body (fst r)) = Some (VInt score) /\
    dict_get "pan_verified" (body (fst r)) = Some (VBool true) /\
    user_field (snd r) uid "trust_score.identity_score" = Some (VInt score) /\
    user_field (snd r) uid "trust_score.identity_verified_at"
    = Some VServerTimestamp /\
    user_field (snd r) uid "trust_score.identity_history"
    = Some (VList [history_entry now_iso score reason]) /\
    (forall uid' k,
       uid' <> uid \/ (forall p, p ∈ identity_paths -> apart p k) ->
       user_field (snd r) uid' k = user_field w uid' k).
Proof.
  intros r Hok. subst r.
  destruct (truthy_cases (id_uid form)) as [Hu | (uid & Hu & Hne)].
  { destruct (identity_route_refused vision secure_filename now_iso form w
                (or_introl Hu)) as (resp & Hr & Hst).
    rewrite Hr in Hok. simpl in Hok. congruence. }
  destruct (truthy_cases (id_phone form)) as [Hp | (phone & Hp & Hpne)].
  { destruct (identity_route_refused vision secure_filename now_iso form w
                (or_intror (or_introl Hp))) as (resp & Hr & Hst).
    rewrite Hr in Hok. simpl in Hok. congruence. }
  destruct (decide (extracted_results vision secure_filename (id_files form)
                    = [])) as [Hres | Hres].
  { destruct (identity_route_refused vision secure_filename now_iso form w
                (or_intror (or_intror Hres))) as (resp & Hr & Hst).
    rewrite Hr in Hok. simpl in Hok. congruence. }
  destruct (identity_route_cases vision secure_filename now_iso form w
              uid phone Hu Hne Hp Hpne Hres)
    as [(_ & Hst & _) | [(_ & resp & w1 & Hv & Hr)
                        | (Hext & pv & msg & w1 & score & reason & bdy
                           & Hv & Hscore & Hr & Hts & Hpv)]].
  - congruence.
  - exfalso. rewrite Hr in Hok. simpl in Hok.
    set (pan := default "" _) in Hv. set (name := default "" _) in Hv.
    destruct (decide (pan = bypass_pan)) as [Hb | Hb].
    + rewrite Hb, verify_pan_bypass in Hv. discriminate.
    + destruct (verify_pan_lookup pan name phone w Hb)
        as [(r' & Hv' & Hst & _) | (msg & g & Hv' & _)];
        rewrite Hv' in Hv; [| discriminate].
      injection Hv as <- _. congruence.
  - rewrite Hr. simpl.
    assert (Hpv' : pv = true /\ users w1 = users w).
    { split; [| exact (verify_pan_users _ _ _ _ _ _ Hv)].
      set (pan := default "" _) in Hv. set (name := default "" _) in Hv.
      destruct (decide (pan = bypass_pan)) as [Hb | Hb].
      - rewrite Hb, verify_pan_bypass in Hv. by injection Hv as <- _ _.
      - destruct (verify_pan_lookup pan name phone w Hb)
          as [(r' & Hv' & _) | (msg' & g & Hv' & _)];
          rewrite Hv' in Hv; [discriminate |]. by injection Hv as <- _ _. }
    destruct Hpv' as [-> Husers].
    apply andb_true_iff in Hext as [_ Hname].
    exists uid, score, reason. split; [exact Hu |].
    assert (Hnd : NoDup (written_paths (identity_fields now_iso score reason))).
    { unfold written_paths. rewrite identity_fields_paths.
      by apply NoDup_three. }
    split; [| split; [exact Hts | split; [exact Hpv
                                         | split; [| split; [| split]]]]].
    + rewrite Hscore, Hname, identity_score_cases.
      destruct (truthy (extract_aadhaar _)),
        (truthy (extract_phone _) && _); simpl;
        repeat (apply list_elem_of_here || apply list_elem_of_further).
    + apply user_field_set_user_written; [exact Hnd |].
      rewrite identity_fields_paths. apply list_elem_of_here.
    + apply user_field_set_user_written; [exact Hnd |].
      rewrite identity_fields_paths.
      apply list_elem_of_further, list_elem_of_here.
    + apply user_field_set_user_written; [exact Hnd |].
      rewrite identity_fields_paths.
      apply list_elem_of_further, list_elem_of_further, list_elem_of_here.
    + intros uid' k Hother.
      rewrite user_field_set_user_other.
      * unfold user_field. by rewrite Husers.
      * unfold written_paths. rewrite identity_fields_paths.
        destruct Hother as [? | Hapart]; [by left | right].
        by apply (apart_not_written identity_paths).
Qed.

(** The ledger operations of one identity request. A 400 answer, and a
    request whose documents do not yield both a PAN and a name, leave the
    ledger as it was: the government record is read only after both are
    extracted. Once they are, there is one read of a government record,
    that of the extracted PAN, and none for the bypass code; and one write
    of the user's record, which happens only in a 200 answer and after the
    read. *)
Theorem identity_route_ledger_operations
    (form : identity_form) (w : world) :
  let r :=
    run (verify_identity_documents vision secure_filename now_iso form) w in
  let combined :=
    combine (extracted_results vision secure_filename (id_files form)) in
  let pan := default "" (extract_pan combined) in
  let extracted :=
    truthy (extract_pan combined) && truthy (extract_name combined) in
  let uid := default "" (id_uid form) in
  ((journal (snd r) = journal w /\
    (status (fst r) = 400 \/ (status (fst r) = 403 /\ extracted = false))) \/
   (journal (snd r) = journal w ++ [GetGovRecord pan] /\
    status (fst r) = 403 /\ extracted = true /\ pan <> bypass_pan) \/
   (journal (snd r) = journal w ++ [SetUser uid] /\
    status (fst r) = 200 /\ extracted = true /\ pan = bypass_pan) \/
   (journal (snd r) = journal w ++ [GetGovRecord pan; SetUser uid] /\
    status (fst r) = 200 /\ extracted = true /\ pan <> bypass_pan)) /\
  (status (fst r) = 400 \/ extracted = false -> snd r = w).
Proof.
  intros r combined pan extracted uid0. subst r.
  destruct (truthy_cases (id_uid form)) as [Hu | (uid & Hu & Hne)].
  { destruct (identity_route_refused vision secure_filename now_iso form w
                (or_introl Hu)) as (resp & -> & Hst).
    split; [left; auto | reflexivity]. }
  destruct (truthy_cases (id_phone form)) as [Hp | (phone & Hp & Hpne)].
  { destruct (identity_route_refused vision secure_filename now_iso form w
                (or_intror (or_introl Hp))) as (resp & -> & Hst).
    split; [left; auto | reflexivity]. }
  destruct (decide (extracted_results vision secure_filename (id_files form)
                    = [])) as [Hres | Hres].
  { destruct (identity_route_refused vision secure_filename now_iso form w
                (or_intror (or_intror Hres))) as (resp & -> & Hst).
    split; [left; auto | reflexivity]. }
  subst uid0. rewrite Hu. simpl.
  destruct (identity_route_cases vision secure_filename now_iso form w
              uid phone Hu Hne Hp Hpne Hres)
    as [(Hext & Hst & Hw) | [(Hext & resp & w1 & Hv & Hr)
                            | (Hext & pv & msg & w1 & score & reason & bdy
                               & Hv & _ & Hr & _)]];
    first [change (extracted = false) in Hext
          | change (extracted = true) in Hext];
    try change (verify_pan pan (default "" (extract_name combined)) phone w
                = (Return resp, w1)) in Hv;
    try change (verify_pan pan (default "" (extract_name combined)) phone w
                = (Continue (pv, msg), w1)) in Hv.
  - split; [| intros _; exact Hw].
    left. rewrite Hw. auto.
  - rewrite Hr. simpl.
    destruct (decide (pan = bypass_pan)) as [Hb | Hb].
    { rewrite Hb, verify_pan_bypass in Hv. discriminate. }
    destruct (verify_pan_lookup pan (default "" (extract_name combined))
                phone w Hb)
      as [(r' & Hv' & Hst & _) | (msg & g & Hv' & _)];
      rewrite Hv' in Hv; [| discriminate].
    injection Hv as <- <-.
    split; [right; left; auto |].
    intros [H | H]; congruence.
  - rewrite Hr. simpl.
    split; [| intros [H | H]; congruence].
    right. right.
    destruct (decide (pan = bypass_pan)) as [Hb | Hb].
    + left. rewrite Hb, verify_pan_bypass in Hv. injection Hv as _ _ <-.
      auto.
    + right.
      destruct (verify_pan_lookup pan (default "" (extract_name combined))
                  phone w Hb)
        as [(r' & Hv' & _) | (msg' & g & Hv' & _)];
        rewrite Hv' in Hv; [discriminate |].
      injection Hv as _ _ <-. simpl. rewrite <- app_assoc. auto.
Qed.

End ScoringWriteFacts.

Section ScoringWriteExamples.
Import Py Re Ledger App Queries Samples.

Lemma financial_route_stores_what_it_reports_witness :
  let vision := fun (_ : string) (_ : list ascii) => Some "Document Type: bill" in
  let scorer := fun _ : string => Some "Score: 72" in
  let form := FinancialForm (Some "u1") [Upload "image/png" "bill.png" []] in
  let r := run (verify_financial_documents vision scorer (fun n => n)
                  "2024-02-01T00:00:00+00:00" form) empty_world in
  exists uid score explanation,
    fin_uid form = Some uid /\
    dict_get "trust_score" (body (fst r)) = Some (VInt score) /\
    dict_get "explanation" (body (fst r)) = Some (VStr explanation) /\
    user_field (snd r) uid "trust_score.financial_score" = Some (VInt score) /\
    user_field (snd r) uid "trust_score.financial_verified_at"
    = Some VServerTimestamp /\
    user_field (snd r) uid "trust_score.financial_history"
    = Some (VList [history_entry "2024-02-01T00:00:00+00:00" score explanation])
    /\
    (forall uid' k,
       uid' <> uid \/ (forall p, p ∈ financial_paths -> apart p k) ->
       user_field (snd r) uid' k = user_field empty_world uid' k).
Proof.
  intros vision scorer form r.
  apply (financial_route_stores_what_it_reports vision scorer (fun n => n)
           "2024-02-01T00:00:00+00:00" form empty_world).
  vm_compute. reflexivity.
Defined.

Lemma identity_route_stores_what_it_reports_witness :
  let r := run (verify_identity_documents (card bypass_pan) (fun n => n)
                  "2024-02-01T00:00:00+00:00" one_card_form) empty_world in
  exists uid score reason,
    id_uid one_card_form = Some uid /\
    score ∈ [50; 70; 80; 100] /\
    dict_get "trust_score" (body (fst r)) = Some (VInt score) /\
    dict_get "pan_verified" (body (fst r)) = Some (VBool true) /\
    user_field (snd r) uid "trust_score.identity_score" = Some (VInt score) /\
    user_field (snd r) uid "trust_score.identity_verified_at"
    = Some VServerTimestamp /\
    user_field (snd r) uid "trust_score.identity_history"
    = Some (VList [history_entry "2024-02-01T00:00:00+00:00" score reason]) /\
    (forall uid' k,
       uid' <> uid \/ (forall p, p ∈ identity_paths -> apart p k) ->
       user_field (snd r) uid' k = user_field empty_world uid' k).
Proof.
  intros r.
  apply (identity_route_stores_what_it_reports (card bypass_pan) (fun n => n)
           "2024-02-01T00:00:00+00:00" one_card_form empty_world).
  vm_compute. reflexivity.
Defined.

End ScoringWriteExamples.

(* ===================================================================== *)
(** * What a loan document holds *)
(* ===================================================================== *)

Section LoanDocumentFacts.
Import Py Ledger App Queries.

Lemma flatten_map (path : string) kv l :
  flatten path (VMap (kv :: l))
  = flat_map (fun kv => flatten (subpath path (fst kv)) (snd kv)) (kv :: l).
Proof.
  simpl. destruct kv as [k x]. simpl. f_equal.
  induction l as [| [k' x'] l IH]; [reflexivity |]. simpl. by rewrite IH.
Qed.

Lemma append_assoc (a b c : string) : (a +:+ b) +:+ c = a +:+ (b +:+ c).
Proof.
  induction a as [| ch a IH]; [reflexivity |].
  change (String ch ((a +:+ b) +:+ c) = String ch (a +:+ (b +:+ c))).
  by rewrite IH.
Qed.

Lemma append_nil_r (a : string) : a +:+ "" = a.
Proof.
  induction a as [| ch a IH]; [reflexivity |].
  change (String ch (a +:+ "") = String ch a). by rewrite IH.
Qed.

(** Every path a value is flattened to extends the path it is stored at. *)
Lemma flatten_keys :
  forall (v : value) (path k : string) (x : value),
    (k, x) ∈ flatten path v -> exists suf, k = path +:+ suf.
Proof.
  fix IH 1. intros v path k x.
  assert (Hleaf : (k, x) ∈ [(path, v)] -> exists suf, k = path +:+ suf).
  { intros H. apply list_elem_of_singleton in H. injection H as -> _.
    exists "". by rewrite append_nil_r. }
  destruct v as [| | | | | | | | kvs]; try exact Hleaf.
  destruct kvs as [| kv l]; [exact Hleaf |]. clear Hleaf.
  rewrite flatten_map.
  induction (kv :: l) as [| [k0 x0] l' IHl]; simpl.
  - intros H. by apply elem_of_nil in H.
  - intros H. apply elem_of_app in H as [H | H]; [| by apply IHl].
    apply IH in H as [suf ->]. unfold subpath.
    exists ("." +:+ k0 +:+ suf). by rewrite !append_assoc.
Qed.

Lemma flatten_keys_fst (v : value) (path k : string) :
  k ∈ (flatten path v).*1 -> exists suf, k = path +:+ suf.
Proof.
  intros H. apply list_elem_of_fmap in H as ([k' x] & -> & Hin).
  by apply flatten_keys in Hin.
Qed.

Lemma fold_insert_middle (l1 l2 : list (string * value)) (d : doc) k v :
  k ∉ l2.*1 ->
  fold_left (fun acc kv => <[fst kv := snd kv]> acc)
            (l1 ++ (k, v) :: l2) d !! k = Some v.
Proof.
  intros Hk. rewrite fold_left_app. simpl.
  rewrite fold_insert_other by exact Hk. apply lookup_insert_eq.
Qed.

Lemma key_not_under (v : value) (path k : string) :
  (forall suf, k <> path +:+ suf) -> k ∉ (flatten path v).*1.
Proof.
  intros Hk Hin. apply flatten_keys_fst in Hin as [suf ->]. by apply (Hk suf).
Qed.

Variable float_of_str : string -> option fnum.
Variable now : Z.

Lemma loan_leaves (f : fnum) (p wl : value) :
  leaves (loan_fields now f p wl)
  = [("amount", VFloat f)] ++ flatten "purpose" p
    ++ [("timestamp", VServerTimestamp)]
    ++ [("due_date", VDatetime (now + 30 * 86400))]
    ++ [("status", VStr "pending")] ++ flatten "wallet" wl.
Proof.
  unfold leaves, loan_fields.
  cbn [flat_map fst snd]. cbn [flatten]. by rewrite app_nil_r.
Qed.

(** The fields of a freshly stored loan document. *)
Lemma new_loan_fields (f : fnum) (p wl : value) :
  let d := merge (loan_fields now f p wl) ∅ in
  d !! "amount" = Some (VFloat f) /\
  d !! "timestamp" = Some VServerTimestamp /\
  d !! "due_date" = Some (VDatetime (now + 2592000)) /\
  d !! "status" = Some (VStr "pending") /\
  d !! "documentsReleased" = None.
Proof.
  intros d. subst d. unfold merge. rewrite loan_leaves.
  assert (Hp : forall k, (forall suf, k <> "purpose" +:+ suf) ->
                         k ∉ (flatten "purpose" p).*1)
    by (intros k; apply key_not_under).
  assert (Hw : forall k, (forall suf, k <> "wallet" +:+ suf) ->
                         k ∉ (flatten "wallet" wl).*1)
    by (intros k; apply key_not_under).
  repeat split.
  - apply (fold_insert_middle []).
    rewrite !fmap_app, !not_elem_of_app. simpl.
    rewrite !not_elem_of_cons.
    repeat split; try discriminate; try apply not_elem_of_nil;
      [apply Hp | apply Hw]; intros suf H; discriminate H.
  - rewrite app_assoc. apply fold_insert_middle.
    rewrite !fmap_app, !not_elem_of_app. simpl.
    rewrite !not_elem_of_cons.
    repeat split; try discriminate; try apply not_elem_of_nil.
    apply Hw. intros suf H. discriminate H.
  - rewrite (app_assoc _ _ ([("due_date", _)] ++ _)), app_assoc.
    apply fold_insert_middle.
    rewrite !fmap_app, !not_elem_of_app. simpl.
    rewrite !not_elem_of_cons.
    repeat split; try discriminate; try apply not_elem_of_nil.
    apply Hw. intros suf H. discriminate H.
  - rewrite (app_assoc _ _ ([("status", _)] ++ _)),
      (app_assoc _ _ ([("status", _)] ++ _)), app_assoc.
    apply fold_insert_middle.
    apply Hw. intros suf H. discriminate H.
  - rewrite fold_insert_other; [apply lookup_empty |].
    rewrite !fmap_app, !not_elem_of_app. simpl.
    rewrite !not_elem_of_cons.
    repeat split; try discriminate; try apply not_elem_of_nil;
      [apply Hp | apply Hw]; intros suf H; discriminate H.
Qed.

Lemma loan_request_accepted
    (data : loan_request_data) (generated : string + string) (w : world) :
  status (fst (run (loan_request float_of_str now data generated) w)) = 200 ->
  exists uid a p wl f loan_id,
    data = LoanRequestData (Some uid) (Some a) (Some p) (Some wl) /\
    generated = inr loan_id /\
    py_float float_of_str a = FloatOk f /\ fle_zero f = false /\
    loans w !! (uid, loan_id) = None /\
    snd (run (loan_request float_of_str now data generated) w)
    = log (AddLoan uid loan_id)
        (World (users w)
           (<[(uid, loan_id) := merge (loan_fields now f p wl) ∅]> (loans w))
           (gov_records w) (journal w)).
Proof.
  unfold loan_request, run, bind, return_if, ret, reply, add_loan.
  destruct data as [[u |] [a |] [p |] [wl |]]; simpl; try discriminate.
  destruct (py_float float_of_str a) as [f | | |] eqn:Hf; simpl;
    try discriminate.
  destruct (fle_zero f) eqn:Hpos; simpl; [discriminate |].
  destruct generated as [e | loan_id]; simpl; [discriminate |].
  destruct (loans w !! (u, loan_id)) eqn:Hfree; simpl; [discriminate |].
  intros _. by exists u, a, p, wl, f, loan_id.
Qed.

(** A loan that was accepted is stored as pending, due 30 days (2,592,000
    seconds) after the request, stamped by the ledger, with an amount that
    is not at or below zero and no release flag; it takes an identifier
    that was free, and no other loan is changed. *)
Theorem new_loan_is_pending_and_due_in_thirty_days
    (data : loan_request_data) (generated : string + string) (w : world) :
  let r := run (loan_request float_of_str now data generated) w in
  status (fst r) = 200 ->
  exists uid loan_id f,
    lr_uid data = Some uid /\ generated = inr loan_id /\
    loans w !! (uid, loan_id) = None /\
    loan_field (snd r) uid loan_id "status" = Some (VStr "pending") /\
    loan_field (snd r) uid loan_id "due_date"
    = Some (VDatetime (now + 2592000)) /\
    loan_field (snd r) uid loan_id "timestamp" = Some VServerTimestamp /\
    loan_field (snd r) uid loan_id "amount" = Some (VFloat f) /\
    fle_zero f = false /\
    loan_field (snd r) uid loan_id "documentsReleased" = None /\
    (forall u l, (u, l) <> (uid, loan_id) ->
                 loans (snd r) !! (u, l) = loans w !! (u, l)).
Proof.
  intros r Hok. subst r.
  destruct (loan_request_accepted data generated w Hok)
    as (uid & a & p & wl & f & loan_id & -> & -> & _ & Hpos & Hfree & ->).
  destruct (new_loan_fields f p wl) as (Ha & Ht & Hd & Hs & Hr).
  exists uid, loan_id, f. unfold loan_field. simpl.
  rewrite lookup_insert_eq. simpl.
  repeat split; try assumption; try reflexivity.
  intros u l Hne. by rewrite lookup_insert_ne.
Qed.

End LoanDocumentFacts.

Section LoanDocumentExamples.
Import Py Ledger App Queries Samples.

Lemma new_loan_is_pending_and_due_in_thirty_days_witness :
  let r := run (loan_request no_float 1706745600 good_request (inr "L1"))
               empty_world in
  exists uid loan_id f,
    lr_uid good_request = Some uid /\
    (inr "L1" : string + string) = inr loan_id /\
    loans empty_world !! (uid, loan_id) = None /\
    loan_field (snd r) uid loan_id "status" = Some (VStr "pending") /\
    loan_field (snd r) uid loan_id "due_date"
    = Some (VDatetime (1706745600 + 2592000)) /\
    loan_field (snd r) uid loan_id "timestamp" = Some VServerTimestamp /\
    loan_field (snd r) uid loan_id "amount" = Some (VFloat f) /\
    fle_zero f = false /\
    loan_field (snd r) uid loan_id "documentsReleased" = None /\
    (forall u l, (u, l) <> (uid, loan_id) ->
                 loans (snd r) !! (u, l) = loans empty_world !! (u, l)).
Proof.
  intros r.
  apply (new_loan_is_pending_and_due_in_thirty_days no_float 1706745600
           good_request (inr "L1") empty_world).
  reflexivity.
Defined.

End LoanDocumentExamples.

(* ===================================================================== *)
(** * More on the decision route *)
(* ===================================================================== *)

Section DecisionFrameFacts.
Import Py Ledger App Queries.

Lemma loan_field_update (uid loan_id u l k : string) fields (w : world) :
  (u, l) <> (uid, loan_id) \/ k ∉ written_paths fields ->
  loan_field (update_loan uid loan_id fields w) u l k = loan_field w u l k.
Proof.
  intros Hother. unfold loan_field, update_loan. simpl.
  destruct (decide ((uid, loan_id) = (u, l))) as [[= <- <-] | Hne].
  - destruct Hother as [? | Hk]; [done |].
    rewrite lookup_alter_eq.
    destruct (loans w !! (uid, loan_id)) as [d |]; [| reflexivity].
    simpl. by apply merge_other.
  - by rewrite lookup_alter_ne.
Qed.


(** Repeating a decision changes nothing further: the loans after two
    identical decision calls are the loans after one. *)
Theorem loan_decision_is_idempotent
    (uid loan_id : string) (decision : option value) (w : world) :
  let once := snd (run (loan_decision uid loan_id decision) w) in
  let twice := snd (run (loan_decision uid loan_id decision) once) in
  loans twice = loans once /\ users twice = users once.
Proof.
  intros once twice. subst twice once.
  destruct (loan_decision_run uid loan_id decision w)
    as [(Hdec & _ & Hw) | [(Hdec & Hnone & _ & Hw)
                          | (s & d & -> & Hs & Hd & _ & Hw)]].
  - rewrite Hw.
    destruct (loan_decision_run uid loan_id decision w)
      as [(_ & _ & ->) | [(Hdec' & _) | (s & d & -> & Hs & _)]];
      [done | congruence |].
    destruct Hs as [-> | ->]; discriminate.
  - rewrite Hw.
    destruct (loan_decision_run uid loan_id decision
                (log (GetLoan uid loan_id) w))
      as [(_ & _ & ->) | [(_ & _ & _ & ->) | (s & d & _ & _ & Hd & _)]];
      [done | done |].
    unfold log in Hd. simpl in Hd. congruence.
  - rewrite Hw.
    destruct (loan_decision_run uid loan_id (Some (VStr s))
                (update_loan uid loan_id [("status", VStr s)]
                   (log (GetLoan uid loan_id) w)))
      as [(_ & _ & ->) | [(_ & _ & _ & ->)
                         | (s' & d' & [= <-] & _ & _ & _ & ->)]];
      [done | done |].
    split; [| reflexivity].
    unfold update_loan, log. simpl.
    apply map_eq. intros [u l].
    destruct (decide ((uid, loan_id) = (u, l))) as [<- | Hne].
    + rewrite !lookup_alter_eq.
      destruct (loans w !! (uid, loan_id)) as [d0 |]; [| reflexivity].
      simpl. f_equal. unfold merge. simpl. apply insert_insert_eq.
    + by rewrite !lookup_alter_ne.
Qed.

End DecisionFrameFacts.

(* ===================================================================== *)
(** * From a loan request to its decision *)
(* ===================================================================== *)

Section LoanLifecycleFacts.
Import Py Ledger App Queries.

Variable float_of_str : string -> option fnum.
Variable now : Z.

(** A loan that was just accepted can be decided under the identifier the
    ledger generated: the decision is answered 200, the status becomes the
    decision, and the amount and the due date stay as they were stored. *)
Theorem accepted_loan_can_be_decided
    (data : loan_request_data) (loan_id s : string) (w : world) :
  let r := run (loan_request float_of_str now data (inr loan_id)) w in
  status (fst r) = 200 ->
  s = "approved" \/ s = "rejected" ->
  let uid := default "" (lr_uid data) in
  let r2 := run (loan_decision uid loan_id (Some (VStr s))) (snd r) in
  status (fst r2) = 200 /\
  loan_field (snd r2) uid loan_id "status" = Some (VStr s) /\
  loan_field (snd r2) uid loan_id "due_date"
  = Some (VDatetime (now + 2592000)) /\
  loan_field (snd r2) uid loan_id "amount"
  = loan_field (snd r) uid loan_id "amount".
Proof.
  intros r Hok Hs uid r2. subst r2 uid r.
  destruct (loan_request_accepted float_of_str now data (inr loan_id) w Hok)
    as (uid & a & p & wl & f & loan_id' & -> & [= <-] & _ & _ & Hfree & Hw).
  simpl. rewrite Hw.
  remember (log (AddLoan uid loan_id) _) as w1 eqn:Hw1.
  assert (Hd : loans w1 !! (uid, loan_id)
               = Some (merge (loan_fields now f p wl) ∅)).
  { rewrite Hw1. simpl. apply lookup_insert_eq. }
  clear Hw1 Hw.
  destruct (new_loan_fields now f p wl) as (Ha & _ & Hdue & _).
  destruct (loan_decision_run uid loan_id (Some (VStr s)) w1)
    as [(Hdec & _) | [(_ & Hnone & _)
                      | (s' & d & [= <-] & _ & _ & Hst & Hw2)]].
  - destruct Hs as [-> | ->]; discriminate.
  - congruence.
  - rewrite Hw2, Hst. split; [reflexivity |].
    split; [| split].
    + unfold loan_field, update_loan. simpl.
      rewrite lookup_alter_eq, Hd. simpl.
      unfold merge at 1. simpl. apply lookup_insert_eq.
    + rewrite loan_field_update.
      * unfold loan_field. simpl. rewrite Hd. simpl. exact Hdue.
      * right. unfold written_paths. simpl.
        apply not_elem_of_cons. split; [discriminate | apply not_elem_of_nil].
    + rewrite loan_field_update; [reflexivity |].
      right. unfold written_paths. simpl.
      apply not_elem_of_cons. split; [discriminate | apply not_elem_of_nil].
Qed.

End LoanLifecycleFacts.

Section LoanLifecycleExamples.
Import Py Ledger App Queries Samples.

Lemma accepted_loan_can_be_decided_witness :
  let r := run (loan_request no_float 1706745600 good_request (inr "L1"))
               empty_world in
  let r2 := run (loan_decision "u1" "L1" (Some (VStr "rejected"))) (snd r) in
  status (fst r2) = 200 /\
  loan_field (snd r2) "u1" "L1" "status" = Some (VStr "rejected") /\
  loan_field (snd r2) "u1" "L1" "due_date"
  = Some (VDatetime (1706745600 + 2592000)) /\
  loan_field (snd r2) "u1" "L1" "amount"
  = loan_field (snd r) "u1" "L1" "amount".
Proof.
  intros r r2.
  apply (accepted_loan_can_be_decided no_float 1706745600 good_request
           "L1" "rejected" empty_world); [reflexivity | by right].
Defined.

End LoanLifecycleExamples.

(* ===================================================================== *)
(** * Which requests the scoring routes accept *)
(* ===================================================================== *)

Section ScoringStatusFacts.
Import Py Re Ledger App Queries.

Variable vision : string -> list ascii -> option string.
Variable scorer : string -> option string.
Variable secure_filename : string -> string.
Variable now_iso : string.

(** One result per uploaded file of an accepted type, in upload order;
    files of any other type are skipped. *)
Lemma extracted_results_accepted (files : list upload) :
  length (extracted_results vision secure_filename files)
  = length (filter (fun f => mimetype f ∈ allowed_types) files) /\
  (extracted_results vision secure_filename files <> [] <->
   exists f, f ∈ files /\ mimetype f ∈ allowed_types).
Proof.
  unfold extracted_results. split; [apply length_map |].
  split.
  - intros Hne.
    destruct (filter (fun f => mimetype f ∈ allowed_types) files)
      as [| f l] eqn:Hf; [done |].
    exists f.
    assert (Hin : f ∈ filter (fun f => mimetype f ∈ allowed_types) files)
      by (rewrite Hf; apply list_elem_of_here).
    apply list_elem_of_filter in Hin as [Hok Hin]. by split.
  - intros (f & Hin & Hok) Hnil. apply fmap_nil_inv in Hnil.
    assert (Hf : f ∈ filter (fun f => mimetype f ∈ allowed_types) files)
      by (by apply list_elem_of_filter).
    rewrite Hnil in Hf. by apply elem_of_nil in Hf.
Qed.

(** The financial route answers 200 exactly when a user id is given and
    at least one uploaded file is a JPEG, a PNG or a PDF; every other
    request is answered 400 and leaves the ledger untouched, whatever the
    scorer would have said. *)
Theorem financial_route_accepts
    (form : financial_form) (w : world) :
  let r :=
    run (verify_financial_documents vision scorer secure_filename now_iso form)
        w in
  (status (fst r) = 200 <->
   truthy (fin_uid form) = true /\
   exists f, f ∈ fin_files form /\ mimetype f ∈ allowed_types) /\
  (status (fst r) <> 200 -> status (fst r) = 400 /\ snd r = w).
Proof.
  intros r. subst r.
  destruct (extracted_results_accepted (fin_files form)) as [_ Hacc].
  destruct (truthy_cases (fin_uid form)) as [Hu | (uid & Hu & Hne)].
  { destruct (financial_route_refused vision scorer secure_filename now_iso
                form w (or_introl Hu)) as (resp & -> & Hst). simpl.
    rewrite Hst. split; [| by intros _].
    split; [discriminate |]. intros [Ht _]. congruence. }
  destruct (decide (extracted_results vision secure_filename (fin_files form)
                    = [])) as [Hres | Hres].
  { destruct (financial_route_refused vision scorer secure_filename now_iso
                form w (or_intror Hres)) as (resp & -> & Hst). simpl.
    rewrite Hst. split; [| by intros _].
    split; [discriminate |]. intros [_ Hf]. apply Hacc in Hf. contradiction. }
  rewrite (financial_route_scored vision scorer secure_filename now_iso
             form w uid Hu Hne Hres). simpl.
  split; [| intros H; by destruct H].
  split; [intros _ | reflexivity].
  split; [rewrite Hu; by apply truthy_intro | by apply Hacc].
Qed.

(** The identity route answers 400 exactly when the user id or the phone
    is missing or no uploaded file is a JPEG, a PNG or a PDF; a 400 leaves
    the ledger untouched. *)
Theorem identity_route_refuses
    (form : identity_form) (w : world) :
  let r :=
    run (verify_identity_documents vision secure_filename now_iso form) w in
  (status (fst r) = 400 <->
   truthy (id_uid form) = false \/ truthy (id_phone form) = false \/
   ~ exists f, f ∈ id_files form /\ mimetype f ∈ allowed_types) /\
  (status (fst r) = 400 -> snd r = w).
Proof.
  intros r. subst r.
  destruct (extracted_results_accepted (id_files form)) as [_ Hacc].
  assert (Hrefused :
            truthy (id_uid form) = false \/ truthy (id_phone form) = false \/
            extracted_results vision secure_filename (id_files form) = [] ->
            status (fst (run (verify_identity_documents vision secure_filename
                                now_iso form) w)) = 400 /\
            snd (run (verify_identity_documents vision secure_filename
                        now_iso form) w) = w).
  { intros Hbad.
    destruct (identity_route_refused vision secure_filename now_iso form w Hbad)
      as (resp & -> & Hst). by split. }
  destruct (truthy_cases (id_uid form)) as [Hu | (uid & Hu & Hne)].
  { destruct (Hrefused (or_introl Hu)) as [Hst Hw]. rewrite Hst, Hw.
    split; [| done]. split; [intros _; by left | done]. }
  destruct (truthy_cases (id_phone form)) as [Hp | (phone & Hp & Hpne)].
  { destruct (Hrefused (or_intror (or_introl Hp))) as [Hst Hw].
    rewrite Hst, Hw.
    split; [| done]. split; [intros _; right; by left | done]. }
  destruct (decide (extracted_results vision secure_filename (id_files form)
                    = [])) as [Hres | Hres].
  { destruct (Hrefused (or_intror (or_intror Hres))) as [Hst Hw].
    rewrite Hst, Hw. split; [| done]. split; [intros _ | done].
    right. right. intros Hf. apply Hacc in Hf. contradiction. }
  assert (Hnot : status (fst (run (verify_identity_documents vision
                                     secure_filename now_iso form) w)) <> 400).
  { destruct (identity_route_cases vision secure_filename now_iso form w
                uid phone Hu Hne Hp Hpne Hres)
      as [(_ & Hst & _) | [(_ & resp & w1 & Hv & Hr)
                          | (_ & pv & msg & w1 & score & reason & bdy
                             & _ & _ & Hr & _)]].
    - rewrite Hst. discriminate.
    - rewrite Hr. simpl.
      set (pan := default "" _) in Hv. set (name := default "" _) in Hv.
      destruct (decide (pan = bypass_pan)) as [Hb | Hb].
      + rewrite Hb, verify_pan_bypass in Hv. discriminate.
      + destruct (verify_pan_lookup pan name phone w Hb)
          as [(r' & Hv' & Hst & _) | (msg & g & Hv' & _)];
          rewrite Hv' in Hv; [| discriminate].
        injection Hv as <- _. rewrite Hst. discriminate.
    - rewrite Hr. simpl. discriminate. }
  split; [| intros H; contradiction].
  split; [intros H; contradiction |].
  intros [Ht | [Ht | Hf]].
  - rewrite Hu in Ht. rewrite (truthy_intro uid Hne) in Ht. discriminate.
  - rewrite Hp in Ht. rewrite (truthy_intro phone Hpne) in Ht. discriminate.
  - exfalso. apply Hf. by apply Hacc.
Qed.

End ScoringStatusFacts.
